(** * onmt/bin/train.py: shard assignment and worker-pool orchestration

    A shallow embedding of [train] (and of the two helpers it reaches,
    [_init_train] and [prepare_fields_transforms]) together with the
    properties of the corpus expansion, of the seeded shuffle and of the
    process start-up sequence.

    Python values are modelled as follows: [str] is [string] (compared
    character by character, as [sorted] does), [int] is [Z], a [dict] is an
    association list kept in insertion order, and every call with an effect
    outside the file (validators, field and checkpoint handling,
    [multiprocessing], the training loop) is an [event] appended to the
    trace of the run.  The file system is an input of the run: the listing
    of each directory, in the order the system returns it.

    Layout: strings, [os], the trace monad, options and corpora, the code
    ([prepare_fields_transforms], [_init_train], shard assignment,
    [launch], [train]), observations on traces, concrete inputs; then the
    lemmas on the monad and on the launch, and the properties C1 to C10;
    last, further properties of the same code (X1 to X18): how a run ends,
    what the expansion and the shuffle keep, and the life of the
    processes. *)

From Stdlib Require Import ZArith String Ascii Lia.
From stdpp Require Import base list sorting strings gmap.

Local Open Scope Z_scope.

(** ** Strings *)

Module Str.

(** [s.endswith(suffix)] *)
Definition endswith (s suffix : string) : bool :=
  let n := String.length s in
  let m := String.length suffix in
  (m <=? n)%nat && String.eqb (String.substring (n - m) m s) suffix.

(** [s.startswith(c)] for a one-character prefix. *)
Definition startswith_char (s : string) (c : ascii) : bool :=
  match s with
  | String a _ => Ascii.eqb a c
  | EmptyString => false
  end.

(** [s[n:]] *)
Fixpoint drop (n : nat) (s : string) : string :=
  match n, s with
  | O, _ => s
  | S n', String _ s' => drop n' s'
  | S _, EmptyString => EmptyString
  end.

(** [s.replace(old, new)] where [old] and [new] are single characters. *)
Fixpoint replace (old new : ascii) (s : string) : string :=
  match s with
  | EmptyString => EmptyString
  | String a s' =>
      String (if Ascii.eqb a old then new else a) (replace old new s')
  end.

(** [c in s] *)
Fixpoint contains (c : ascii) (s : string) : bool :=
  match s with
  | EmptyString => false
  | String a s' => Ascii.eqb a c || contains c s'
  end.

(** [s.rfind(c)], with [-1] when [c] does not occur. *)
Fixpoint rfind (c : ascii) (s : string) : Z :=
  match s with
  | EmptyString => -1
  | String a s' =>
      let r := rfind c s' in
      if 0 <=? r then r + 1
      else if Ascii.eqb a c then 0 else -1
  end.

(** The order [sorted] uses on [str]. *)
Definition le (a b : string) : Prop := String.leb a b = true.

#[global] Instance le_dec a b : Decision (le a b).
Proof. unfold le. apply _. Defined.

End Str.

(** ** os and os.path (POSIX) *)

Module os.

Definition sep : ascii := "/"%char.

(** [posixpath.join(a, b)] *)
Definition path_join (a b : string) : string :=
  if Str.startswith_char b sep then b
  else if String.eqb a "" || Str.endswith a "/" then a +:+ b
  else a +:+ "/" +:+ b.

(** A directory entry.  The order of [entries] is the order in which the
    file system lists them, which no caller controls. *)
#[warnings="-register-all"]
Inductive fsnode : Type :=
| File (name : string)
| Dir (name : string) (entries : list fsnode).

(** What a run can observe of the file system: the listing of every path
    that is a directory, and which paths exist. *)
Record filesystem : Type := {
  listing : string -> option (list fsnode);
  path_exists : string -> bool;
}.

Definition path_isdir (fs : filesystem) (p : string) : bool :=
  bool_decide (is_Some (listing fs p)).

Definition dirnames (es : list fsnode) : list string :=
  omap (fun e => match e with Dir n _ => Some n | File _ => None end) es.

Definition filenames (es : list fsnode) : list string :=
  omap (fun e => match e with File n => Some n | Dir _ _ => None end) es.

(** [os.walk] below a directory [top] (top-down, links not followed):
    one [(root, dirs, files)] triple for the directory, then the walk of
    each sub-directory in listing order. *)
Fixpoint walk_node (top : string) (e : fsnode)
  : list (string * list string * list string) :=
  match e with
  | File _ => []
  | Dir n es =>
      let root := path_join top n in
      (root, dirnames es, filenames es) :: flat_map (walk_node root) es
  end.

Definition walk (fs : filesystem) (top : string)
  : list (string * list string * list string) :=
  match listing fs top with
  | Some es => (top, dirnames es, filenames es) :: flat_map (walk_node top) es
  | None => []
  end.

(** The number of files with the data extension below an entry, at any
    depth. *)
Fixpoint data_files_node (e : fsnode) : nat :=
  match e with
  | File n => if Str.endswith n ".json" then 1 else 0
  | Dir _ es =>
      (fix sum (es : list fsnode) : nat :=
         match es with
         | [] => O
         | e :: es' => (data_files_node e + sum es')%nat
         end) es
  end.

Definition data_files (es : list fsnode) : nat :=
  foldr (fun e acc => (data_files_node e + acc)%nat) O es.

(** Two listings with the same contents: the same entries, with the same
    contents, in any order. *)
Inductive same_node : fsnode -> fsnode -> Prop :=
| same_File n : same_node (File n) (File n)
| same_Dir n es es' : same_listing es es' -> same_node (Dir n es) (Dir n es')
with same_listing : list fsnode -> list fsnode -> Prop :=
| same_nil : same_listing [] []
| same_skip e e' es es' :
    same_node e e' -> same_listing es es' -> same_listing (e :: es) (e' :: es')
| same_swap e1 e2 es : same_listing (e1 :: e2 :: es) (e2 :: e1 :: es)
| same_trans es1 es2 es3 :
    same_listing es1 es2 -> same_listing es2 es3 -> same_listing es1 es3.

Scheme same_node_mut := Induction for same_node Sort Prop
  with same_listing_mut := Induction for same_listing Sort Prop.


(** The name of a directory entry: not empty and without separator. *)
Definition valid_name (n : string) : bool :=
  negb (String.eqb n "") && negb (Str.contains sep n).

Fixpoint valid_node (e : fsnode) : bool :=
  match e with
  | File n => valid_name n
  | Dir n es => valid_name n && forallb valid_node es
  end.

(** The paths of the data files below an entry, relative to the directory
    that lists it. *)
Fixpoint relative_paths_node (e : fsnode) : list string :=
  match e with
  | File n => if Str.endswith n ".json" then [n] else []
  | Dir n es => (fun r => n +:+ "/" +:+ r) <$> flat_map relative_paths_node es
  end.

Definition relative_paths (es : list fsnode) : list string :=
  flat_map relative_paths_node es.

(** [root] made ready for a component to follow it. *)
Definition with_sep (root : string) : string :=
  if String.eqb root "" || Str.endswith root "/" then root else root +:+ "/".

(** Induction on entries, with the hypothesis for every entry of a
    directory. *)
Section fsnode_nested_ind.
Variable P : fsnode -> Prop.
Hypothesis HFile : forall n, P (File n).
Hypothesis HDir : forall n es, Forall P es -> P (Dir n es).

Fixpoint fsnode_nested_ind (e : fsnode) : P e :=
  match e with
  | File n => HFile n
  | Dir n es =>
      HDir n es
        ((fix all (es : list fsnode) : Forall P es :=
            match es with
            | [] => List.Forall_nil P
            | e :: es' => List.Forall_cons P e es' (fsnode_nested_ind e) (all es')
            end) es)
  end.
End fsnode_nested_ind.

End os.

(** ** The run: exceptions, events and the trace monad *)

(** The exceptions a run of [train] can end in.  [Exception] is the
    built-in class raised for a directory without data files; [SystemExit]
    is [sys.exit()]. *)
Inductive exn : Type :=
| Exception (msg : string)
| TypeError
| IndexError
| SystemExit.

(** A queue made by [mp.Queue(maxsize)].  [queue_id] stands for the identity
    of the object: the number of queues made before it. *)
Record Queue : Type := { queue_id : nat; maxsize : Z }.

#[global] Instance Queue_eq_dec : EqDecision Queue.
Proof. solve_decision. Defined.

(** The iterator returned by [_build_train_iter(..., stride=, offset=)]. *)
Record train_iter : Type := { stride : nat; offset : nat }.

(** The [target] and [args] of an [mp.Process].  The semaphore, the error
    queue and [opt] are the same objects in every process and are left out. *)
Inductive target : Type :=
| consumer (device_id : nat) (q : Queue)
| batch_producer (it : train_iter) (q : Queue).

Record Process : Type := { proc_target : target; daemon : bool }.

(** Calls that leave this file, in the order a run makes them.  Calls to
    [logger] are not recorded.  Every recorded call is taken to return:
    a failure of a worker, which the error handler turns into an exception
    of the parent, is outside this model. *)
Inductive event : Type :=
| init_logger
| validate_train_opts
| update_model_opts
| validate_model_opts
| set_random_seed (seed : Z)
| validate_prepare_opts
| load_checkpoint (ckpt_path : string)
| load_fields
| build_dynamic_fields
| prepare_pretrained_embeddings
| save_fields
| make_transforms
| save_transforms
| save_transformed_sample (n_sample : Z)
| os_mkdir (path : string)
| copy2 (src dst : string)
| mp_Semaphore (value : Z)
| mp_SimpleQueue
| new_ErrorHandler
| mp_Queue (q : Queue)
| build_train_iter (it : train_iter)
| start (p : Process)
| add_child (p : Process)
| join (p : Process)
| terminate (p : Process)
| single_main (device_id : Z).

Definition trace : Type := list event.

Module M.

(** A computation: the calls made so far and either the exception that
    ended it or its value. *)
Definition t (A : Type) : Type := trace * (exn + A).

Definition ret {A} (a : A) : t A := ([], inr a).

Definition bind {A B} (m : t A) (k : A -> t B) : t B :=
  match m with
  | (tr, inl e) => (tr, inl e)
  | (tr, inr a) => let '(tr', r) := k a in (tr ++ tr', r)
  end.

Definition emit (e : event) : t unit := ([e], inr tt).

Definition raise {A} (e : exn) : t A := ([], inl e).

(** [for x in xs: s = body x s] *)
Fixpoint for_each {A S} (xs : list A) (body : A -> S -> t S) (s : S) : t S :=
  match xs with
  | [] => ret s
  | x :: xs' => bind (body x s) (for_each xs' body)
  end.

(** [l[i]] *)
Definition index {A} (l : list A) (i : nat) : t A :=
  match l !! i with
  | Some a => ret a
  | None => raise IndexError
  end.

(** A value used where the callee or the operator needs a [str]:
    [os.path.exists(None)], [os.sep in None] and [None + os.sep] raise
    [TypeError]. *)
Definition str {A} (v : option A) : t A :=
  match v with
  | Some a => ret a
  | None => raise TypeError
  end.

End M.

Notation "'let*' x ':=' c 'in' k" := (M.bind c (fun x => k))
  (at level 10, x pattern, c at level 100, k at level 200).
Notation "c >> k" := (M.bind c (fun _ => k))
  (at level 100, k at level 200, right associativity).

(** ** Options and corpora *)

(** One value of [opt.data].  [label_data] is [None] when the key is not in
    the dict, [Some None] when it holds Python's [None], and
    [Some (Some roots)] when it holds a list of label folders.  [others]
    are the remaining items, which [train] copies untouched. *)
Record corpus_dict : Type := {
  path_src : string;
  path_tgt : option string;
  label_data : option (option (list string));
  others : list (string * string);
}.

(** A [dict] with [str] keys, in insertion order. *)
Definition dict (V : Type) : Type := list (string * V).

(** [list(d.keys())] *)
Definition keys {V} (d : dict V) : list string := fst <$> d.

(** [d[k] = v]: a key already present keeps its place. *)
Fixpoint dict_set {V} (k : string) (v : V) (d : dict V) : dict V :=
  match d with
  | [] => [(k, v)]
  | (k', v') :: d' =>
      if String.eqb k' k then (k', v) :: d' else (k', v') :: dict_set k v d'
  end.

(** [{k: v for k, v in kv_pairs}] *)
Definition dict_of_pairs {V} (kv_pairs : list (string * V)) : dict V :=
  fold_left (fun d kv => dict_set kv.1 kv.2 d) kv_pairs [].

(** The attributes of [opt] that [train] reads.  [config] and [exp_dir]
    are [None] when [opt] has no such attribute, [Some None] when the
    attribute holds Python's [None] (what the argument parser leaves for an
    option that is not given), and [Some (Some s)] when it holds the
    string [s]. *)
Record Opt : Type := {
  world_size : Z;
  gpu_ranks : list Z;
  queue_size : Z;
  seed : Z;
  data : dict corpus_dict;
  train_from : string;
  n_sample : Z;
  dump_fields : bool;
  dump_transforms : bool;
  config : option (option string);
  exp_dir : option (option string);
}.

Definition set_data (opt : Opt) (d : dict corpus_dict) : Opt :=
  {| world_size := world_size opt; gpu_ranks := gpu_ranks opt;
     queue_size := queue_size opt; seed := seed opt; data := d;
     train_from := train_from opt; n_sample := n_sample opt;
     dump_fields := dump_fields opt; dump_transforms := dump_transforms opt;
     config := config opt; exp_dir := exp_dir opt |}.

(** ** prepare_fields_transforms and _init_train *)

(** Prepare or dump fields and transforms before training.  With
    [-n_sample] different from 0 the samples are saved and the process
    exits: training is not started. *)
Definition prepare_fields_transforms (opt : Opt) : M.t unit :=
  M.emit build_dynamic_fields >>
  M.emit prepare_pretrained_embeddings >>
  (if dump_fields opt then M.emit save_fields else M.ret tt) >>
  (if dump_transforms opt || negb (n_sample opt =? 0)
   then M.emit make_transforms else M.ret tt) >>
  (if dump_transforms opt then M.emit save_transforms else M.ret tt) >>
  (if negb (n_sample opt =? 0) then
     M.emit (save_transformed_sample (n_sample opt)) >>
     M.raise SystemExit
   else M.ret tt).

(** Common initialisation of every training process.  The checkpoint, the
    fields and the transform classes it returns are opaque to [train] and
    are not represented. *)
Definition _init_train (opt : Opt) : M.t unit :=
  M.emit validate_prepare_opts >>
  (if negb (String.eqb (train_from opt) "") then
     M.emit (load_checkpoint (train_from opt)) >>
     M.emit load_fields
   else prepare_fields_transforms opt).

(** ** Shard assignment: train.py lines 108-143 *)

(** Modelled from the spec: [utils.numpy_seed] and numpy's generator are not
    part of the source at hand.  The spec asks for "a seeded pseudo-random
    permutation" where "the seed and the pre-shuffle order together fully
    determine the result": inside [with utils.numpy_seed(seed)] the state
    of the generator is a function of [seed], and [random_interval s m]
    draws an integer of [0..m] and returns the next state. *)
Record generator : Type := {
  rng_state : Type;
  numpy_seed : Z -> rng_state;
  random_interval : rng_state -> nat -> nat * rng_state;
  random_interval_le : forall s m, ((random_interval s m).1 <= m)%nat;
}.

(** [x[i], x[j] = x[j], x[i]] *)
Definition swap {A} (i j : nat) (x : list A) : list A :=
  match x !! i, x !! j with
  | Some a, Some b => <[i:=b]> (<[j:=a]> x)
  | _, _ => x
  end.

(** The loop of [np.random.shuffle] on a list:
    [for i in reversed(range(1, n)): j = random_interval(i); swap]. *)
Fixpoint shuffle_from {A} (G : generator) (i : nat) (s : rng_state G)
    (x : list A) : list A :=
  match i with
  | O => x
  | S i' =>
      let '(j, s') := random_interval G s i in
      shuffle_from G i' s' (swap i j x)
  end.

Definition shuffle {A} (G : generator) (seed : Z) (x : list A) : list A :=
  shuffle_from G (length x - 1) (numpy_seed G seed) x.

(** Lines 118-122: the data files found by a walk, in the order found. *)
Definition found_paths (w : list (string * list string * list string))
  : list string :=
  flat_map
    (fun '(root, _, files) =>
       os.path_join root <$> filter (fun file => Str.endswith file ".json") files)
    w.

(** What one entry of a directory [top] adds to the paths found. *)
Definition contribution (top : string) (e : os.fsnode) : list string :=
  (os.path_join top <$> filter (fun file => Str.endswith file ".json") (os.filenames [e]))
  ++ found_paths (os.walk_node top e).

(** Lines 118-123: the data files below [path], sorted. *)
Definition src_file_paths (fs : os.filesystem) (path : string) : list string :=
  merge_sort Str.le (found_paths (os.walk fs path)).

Definition no_json_files (corpus_id path : string) : string :=
  "Error: no JSON files found in for " +:+ corpus_id +:+ " in: " +:+ path.

(** Lines 127-135: the entry made for one data file. *)
Definition expand_file (corpus_id : string) (corpus : corpus_dict)
    (src_file_path : string) (new_data_dict : dict corpus_dict)
  : M.t (dict corpus_dict) :=
  let src_file := Str.drop (String.length (path_src corpus)) src_file_path in
  let* labels :=
    match label_data corpus with
    | Some (Some label_folders) =>
        M.ret (Some (Some ((fun label_folder => os.path_join label_folder src_file)
                             <$> label_folders)))
    | Some None => M.raise TypeError
    | None => M.ret (Some None)
    end in
  let new_corpus_dict :=
    {| path_src := src_file_path; path_tgt := Some src_file_path;
       label_data := labels; others := others corpus |} in
  M.ret (dict_set (corpus_id +:+ "-" +:+ Str.replace os.sep "-" src_file)
           new_corpus_dict new_data_dict).

(** The item that lines 127-135 make for the data file at the relative
    path [r] of a directory given with its trailing separator. *)
Definition entry_for (corpus_id : string) (corpus : corpus_dict) (r : string)
  : string * corpus_dict :=
  (corpus_id +:+ "-" +:+ Str.replace os.sep "-" r,
   {| path_src := path_src corpus +:+ r;
      path_tgt := Some (path_src corpus +:+ r);
      label_data :=
        match label_data corpus with
        | Some (Some label_folders) =>
            Some (Some ((fun label_folder => os.path_join label_folder r)
                          <$> label_folders))
        | _ => Some None
        end;
      others := others corpus |}).

(** Lines 117-137: the body of the loop over [opt.data.items()]. *)
Definition expand_corpus (fs : os.filesystem) (item : string * corpus_dict)
    (new_data_dict : dict corpus_dict) : M.t (dict corpus_dict) :=
  let '(corpus_id, corpus) := item in
  if os.path_isdir fs (path_src corpus) then
    let paths := src_file_paths fs (path_src corpus) in
    if (length paths =? 0)%nat then
      M.raise (Exception (no_json_files corpus_id (path_src corpus)))
    else M.for_each paths (expand_file corpus_id corpus) new_data_dict
  else M.ret (dict_set corpus_id corpus new_data_dict).

(** Lines 108 and 116-137: [new_data_dict] after the loop. *)
Definition expand_data (fs : os.filesystem) (data : dict corpus_dict)
  : M.t (dict corpus_dict) :=
  M.for_each data (expand_corpus fs) [].

(** Lines 139-142: the new value of [opt.data]. *)
Definition shard_assignment (G : generator) (fs : os.filesystem) (opt : Opt)
  : M.t (dict corpus_dict) :=
  let* new_data_dict := expand_data fs (data opt) in
  let kv_pairs := shuffle G (seed opt) new_data_dict in
  M.ret (dict_of_pairs kv_pairs).

(** ** train: lines 99-197 *)

(** Lines 110-114: copy the config file to the experiment folder.  The
    guard is [hasattr], which also holds of an attribute that is [None]:
    then [os.path.exists(opt.exp_dir)] on line 111, or [os.sep in opt.config]
    on line 113, raises [TypeError]. *)
Definition copy_config (fs : os.filesystem) (opt : Opt) : M.t unit :=
  match config opt, exp_dir opt with
  | Some config, Some exp_dir =>
      let* exp_dir := M.str exp_dir in
      (if negb (os.path_exists fs exp_dir) then M.emit (os_mkdir exp_dir)
       else M.ret tt) >>
      let* config := M.str config in
      let filename :=
        if Str.contains os.sep config
        then Str.drop (Z.to_nat (Str.rfind os.sep config + 1)) config
        else config in
      M.emit (copy2 config (exp_dir +:+ "/" +:+ filename))
  | _, _ => M.ret tt
  end.

(** Lines 163-171: make the queue of [device_id], start its consumer and
    register it with the error handler. *)
Definition spawn_consumer (opt : Opt) (device_id : nat)
    (st : list Queue * list Process) : M.t (list Queue * list Process) :=
  let '(queues, procs) := st in
  let q := {| queue_id := length queues; maxsize := queue_size opt |} in
  M.emit (mp_Queue q) >>
  let queues := queues ++ [q] in
  let procs := procs ++ [{| proc_target := consumer device_id q; daemon := true |}] in
  let* p := M.index procs device_id in
  M.emit (start p) >>
  M.emit (add_child p) >>
  M.ret (queues, procs).

(** Lines 174-186: build the iterator of [device_id], start its producer
    and register it with the error handler. *)
Definition spawn_producer (nb_gpu : nat) (queues : list Queue) (device_id : nat)
    (producers : list Process) : M.t (list Process) :=
  let train_iter := {| stride := nb_gpu; offset := device_id |} in
  M.emit (build_train_iter train_iter) >>
  let* q := M.index queues device_id in
  let producer := {| proc_target := batch_producer train_iter q; daemon := true |} in
  let producers := producers ++ [producer] in
  let* p := M.index producers device_id in
  M.emit (start p) >>
  M.emit (add_child p) >>
  M.ret producers.

(** Lines 151-197: run the training on the devices of [opt.gpu_ranks]. *)
Definition launch (opt : Opt) : M.t unit :=
  let nb_gpu := length (gpu_ranks opt) in
  if 1 <? world_size opt then
    M.emit (mp_Semaphore (world_size opt * queue_size opt)) >>
    M.emit mp_SimpleQueue >>
    M.emit new_ErrorHandler >>
    let* (queues, procs) := M.for_each (seq 0 nb_gpu) (spawn_consumer opt) ([], []) in
    let* producers := M.for_each (seq 0 nb_gpu) (spawn_producer nb_gpu queues) [] in
    M.for_each procs (fun p _ => M.emit (join p)) tt >>
    M.for_each producers (fun p _ => M.emit (terminate p)) tt
  else if (nb_gpu =? 1)%nat then M.emit (single_main 0)
  else M.emit (single_main (-1)).

(** [train(opt)].  The value is [opt] as the caller finds it afterwards,
    with [opt.data] replaced by the shuffled shards. *)
Definition train (G : generator) (fs : os.filesystem) (opt : Opt) : M.t Opt :=
  M.emit init_logger >>
  M.emit validate_train_opts >>
  M.emit update_model_opts >>
  M.emit validate_model_opts >>
  M.emit (set_random_seed (seed opt)) >>
  _init_train opt >>
  copy_config fs opt >>
  let* new_data_dict := shard_assignment G fs opt in
  let opt := set_data opt new_data_dict in
  launch opt >>
  M.ret opt.

(** ** Observations on a trace *)

Definition is_consumer (p : Process) : bool :=
  match proc_target p with consumer _ _ => true | batch_producer _ _ => false end.

Definition is_producer (p : Process) : bool :=
  match proc_target p with batch_producer _ _ => true | consumer _ _ => false end.

(** The processes started during a run, in order. *)
Definition started (tr : trace) : list Process :=
  omap (fun e => match e with start p => Some p | _ => None end) tr.

Definition registered (tr : trace) : list Process :=
  omap (fun e => match e with add_child p => Some p | _ => None end) tr.

Definition joined (tr : trace) : list Process :=
  omap (fun e => match e with join p => Some p | _ => None end) tr.

Definition terminated (tr : trace) : list Process :=
  omap (fun e => match e with terminate p => Some p | _ => None end) tr.

(** The device identifiers of the inline runs of the compute step. *)
Definition inline_runs (tr : trace) : list Z :=
  omap (fun e => match e with single_main d => Some d | _ => None end) tr.

(** The capacities of the semaphores made, and the queues made. *)
Definition semaphores (tr : trace) : list Z :=
  omap (fun e => match e with mp_Semaphore v => Some v | _ => None end) tr.

Definition queues_made (tr : trace) : list Queue :=
  omap (fun e => match e with mp_Queue q => Some q | _ => None end) tr.

(** Calls that start or register a consumer, and calls that start a
    producer. *)
Definition consumer_event (e : event) : bool :=
  match e with
  | start p | add_child p => is_consumer p
  | _ => false
  end.

Definition producer_start (e : event) : bool :=
  match e with
  | start p => is_producer p
  | _ => false
  end.

(** The iterators built, in order. *)
Definition iterators_built (tr : trace) : list train_iter :=
  omap (fun e => match e with build_train_iter it => Some it | _ => None end) tr.

(** The calls of [launch]; the others are made before it. *)
Definition is_launch_event (e : event) : bool :=
  match e with
  | mp_Semaphore _ | mp_SimpleQueue | new_ErrorHandler | mp_Queue _
  | build_train_iter _ | start _ | add_child _ | join _ | terminate _
  | single_main _ => true
  | _ => false
  end.

(** The queue and the iterator a process was given. *)
Definition queue_of_process (p : Process) : Queue :=
  match proc_target p with consumer _ q => q | batch_producer _ q => q end.

Definition iter_of_process (p : Process) : option train_iter :=
  match proc_target p with batch_producer it _ => Some it | consumer _ _ => None end.

(** Modelled from the spec: [_build_train_iter] is defined in
    [onmt.train_single], which is not at hand.  The spec describes the
    iterator as "striding over the ShardSet by (totalWorkers, workerOffset)
    so that workers partition the data without overlap": the iterator built
    with [stride] and [offset] yields the items whose position is [offset]
    modulo [stride]. *)
Definition yields (it : train_iter) (position : nat) : bool :=
  (position mod stride it =? offset it)%nat.

Definition serves (position : nat) (p : Process) : bool :=
  match iter_of_process p with Some it => yields it position | None => false end.

(** The queue, the consumer and the producer of worker [i]. *)
Definition queue_of (opt : Opt) (i : nat) : Queue :=
  {| queue_id := i; maxsize := queue_size opt |}.

Definition consumer_of (opt : Opt) (i : nat) : Process :=
  {| proc_target := consumer i (queue_of opt i); daemon := true |}.

Definition producer_of (opt : Opt) (i : nat) : Process :=
  {| proc_target :=
       batch_producer {| stride := length (gpu_ranks opt); offset := i |}
         (queue_of opt i);
     daemon := true |}.

(** The calls of a multi-device launch. *)
Definition launch_trace (opt : Opt) : trace :=
  let ordinals := seq 0 (length (gpu_ranks opt)) in
  [mp_Semaphore (world_size opt * queue_size opt); mp_SimpleQueue; new_ErrorHandler]
  ++ flat_map (fun i => [mp_Queue (queue_of opt i); start (consumer_of opt i);
                         add_child (consumer_of opt i)]) ordinals
  ++ flat_map (fun i => [build_train_iter {| stride := length (gpu_ranks opt); offset := i |};
                         start (producer_of opt i); add_child (producer_of opt i)]) ordinals
  ++ (join <$> (consumer_of opt <$> ordinals))
  ++ (terminate <$> (producer_of opt <$> ordinals)).

(** The calls made before the shards are assigned. *)
Definition prelude (fs : os.filesystem) (opt : Opt) : trace :=
  [init_logger; validate_train_opts; update_model_opts; validate_model_opts;
   set_random_seed (seed opt)]
  ++ (_init_train opt).1 ++ (copy_config fs opt).1.

(** [_init_train] returns: a checkpoint is loaded, or no sample is asked for. *)
Definition starts_training (opt : Opt) : bool :=
  negb (String.eqb (train_from opt) "") || (n_sample opt =? 0).

(** The config copy of lines 110-114 returns: [opt] lacks one of the two
    attributes, or both hold a string. *)
Definition config_copy_returns (opt : Opt) : bool :=
  match config opt, exp_dir opt with
  | Some None, Some _ | Some _, Some None => false
  | _, _ => true
  end.

(** A corpus the expansion accepts: a directory holds a data file, and its
    label folders, when the key is there, are a list. *)
Definition expandable (fs : os.filesystem) (item : string * corpus_dict) : bool :=
  if os.path_isdir fs (path_src item.2) then
    negb (length (src_file_paths fs (path_src item.2)) =? 0)%nat
    && negb (bool_decide (label_data item.2 = Some None))
  else true.

(** ** Concrete inputs *)

Module Ex.

(** A generator that always draws 0. *)
Program Definition G0 : generator :=
  {| rng_state := unit; numpy_seed := fun _ => tt;
     random_interval := fun s _ => (0%nat, s) |}.
Next Obligation. intros; simpl; lia. Qed.

Definition no_fs : os.filesystem :=
  {| os.listing := fun _ => None; os.path_exists := fun _ => true |}.

Definition corpus (path : string) : corpus_dict :=
  {| path_src := path; path_tgt := Some path; label_data := None; others := [] |}.

Definition opt0 : Opt :=
  {| world_size := 1; gpu_ranks := []; queue_size := 40; seed := 3435;
     data := [("corpus_1", corpus "train.json")]; train_from := "";
     n_sample := 0; dump_fields := false; dump_transforms := false;
     config := None; exp_dir := None |}.

(** A directory [dir] with the files [a.json] and [b.json], reached
    through the path [path]. *)
Definition fs_ab (path : string) : os.filesystem :=
  {| os.listing := fun p =>
       if String.eqb p path then Some [os.File "b.json"; os.File "a.json"]
       else None;
     os.path_exists := fun _ => true |}.




(** A file [a-b.json] next to a directory [a] that holds [b.json]. *)
Definition fs_clash : os.filesystem :=
  {| os.listing := fun p =>
       if String.eqb p "corpus/"
       then Some [os.Dir "a" [os.File "b.json"]; os.File "a-b.json"]
       else None;
     os.path_exists := fun _ => true |}.

Definition opt_dir (path : string) (labels : option (option (list string)))
  : Opt :=
  {| world_size := 1; gpu_ranks := []; queue_size := 40; seed := 3435;
     data := [("id", {| path_src := path; path_tgt := None;
                        label_data := labels; others := [] |})];
     train_from := ""; n_sample := 0; dump_fields := false;
     dump_transforms := false; config := None; exp_dir := None |}.

(** Two of the four ranks of a two-node run are on this node. *)
Definition opt_two_of_four : Opt :=
  {| world_size := 4; gpu_ranks := [0; 1]; queue_size := 40; seed := 3435;
     data := [("corpus_1", corpus "train.json")]; train_from := "";
     n_sample := 0; dump_fields := false; dump_transforms := false;
     config := None; exp_dir := None |}.

End Ex.

(** ** The warning of _init_train: lines 69-81 *)

(** A piece of the logged message: literal text, or a set of transform
    names as Python prints it. *)
Inductive fragment : Type :=
| text (s : string)
| set_repr (transforms : gset string).

(** [a.symmetric_difference(b)] *)
Definition symmetric_difference (a b : gset string) : gset string :=
  (a ∖ b) ∪ (b ∖ a).

(** Lines 69-81: the message logged when training resumes with transforms
    other than those of the checkpoint, [None] when nothing is logged.
    [checkpointed] is [None] when [checkpoint["opt"]] has no attribute
    [_all_transform]. *)
Definition transforms_warning (configured : gset string)
    (checkpointed : option (gset string)) : option (list fragment) :=
  match checkpointed with
  | Some checkpointed =>
      if negb (size (symmetric_difference configured checkpointed) =? 0)%nat then
        let _msg := [text "configured transforms is different from checkpoint:"] in
        let new_transf := configured ∖ checkpointed in
        let old_transf := checkpointed ∖ configured in
        let _msg :=
          if negb (size new_transf =? 0)%nat
          then _msg ++ [text " +"; set_repr new_transf] else _msg in
        let _msg :=
          if negb (size old_transf =? 0)%nat
          then _msg ++ [text " -"; set_repr old_transf; text "."] else _msg in
        Some _msg
      else None
  | None => None
  end.

(** The sets of transform names a message shows. *)
Definition shown (msg : list fragment) : list (gset string) :=
  omap (fun f => match f with set_repr t => Some t | text _ => None end) msg.

(** ** Further observations *)

(** In [tr] every start of a process is followed at once by its
    registration. *)
Definition registered_at_once (tr : trace) : Prop :=
  forall i p, tr !! i = Some (start p) -> tr !! S i = Some (add_child p).

(** The identifier that line 135 gives to the data file [p] of [corpus]. *)
Definition identifier_of (corpus_id : string) (corpus : corpus_dict) (p : string)
  : string :=
  corpus_id +:+ "-"
  +:+ Str.replace os.sep "-" (Str.drop (String.length (path_src corpus)) p).

(** The identifiers that the expansion of one corpus sets. *)
Definition identifiers_set (fs : os.filesystem) (item : string * corpus_dict)
  : list string :=
  if os.path_isdir fs (path_src item.2)
  then identifier_of item.1 item.2 <$> src_file_paths fs (path_src item.2)
  else [item.1].

(** Calls that need the value of [transforms]. *)
Definition uses_transforms (e : event) : bool :=
  match e with
  | save_transforms | save_transformed_sample _ => true
  | _ => false
  end.

(** The most shards one corpus can give: its data files when it is a
    directory, itself otherwise. *)
Definition shard_budget (fs : os.filesystem) (item : string * corpus_dict) : nat :=
  match os.listing fs (path_src item.2) with
  | Some es => os.data_files es
  | None => 1%nat
  end.

(** The item that lines 127-135 make for the data file at the relative
    path [r] of a directory given without trailing separator. *)
Definition entry_without_separator (corpus_id : string) (corpus : corpus_dict)
    (r : string) : string * corpus_dict :=
  (corpus_id +:+ "--" +:+ Str.replace os.sep "-" r,
   {| path_src := path_src corpus +:+ "/" +:+ r;
      path_tgt := Some (path_src corpus +:+ "/" +:+ r);
      label_data :=
        match label_data corpus with
        | Some (Some label_folders) =>
            Some (Some ((fun _ => "/" +:+ r) <$> label_folders))
        | _ => Some None
        end;
      others := others corpus |}).

(** Further concrete inputs. *)
Module Inputs.

(** Samples are asked for and no checkpoint is given. *)
Definition opt_sampling : Opt :=
  {| world_size := 1; gpu_ranks := [0]; queue_size := 40; seed := 3435;
     data := [("corpus_1", Ex.corpus "train.json")]; train_from := "";
     n_sample := 5; dump_fields := true; dump_transforms := false;
     config := None; exp_dir := None |}.

(** A config file copied to an experiment folder that does not exist. *)
Definition opt_config : Opt :=
  {| world_size := 1; gpu_ranks := [0]; queue_size := 40; seed := 3435;
     data := [("corpus_1", Ex.corpus "train.json")]; train_from := "";
     n_sample := 0; dump_fields := false; dump_transforms := false;
     config := Some (Some "config/run/kp20k.yml"); exp_dir := Some (Some "exp") |}.

Definition fs_no_exp : os.filesystem :=
  {| os.listing := fun _ => None; os.path_exists := fun _ => false |}.

(** Several workers asked for, no rank on this node. *)
Definition opt_no_ranks : Opt :=
  {| world_size := 2; gpu_ranks := []; queue_size := 40; seed := 3435;
     data := [("corpus_1", Ex.corpus "train.json")]; train_from := "";
     n_sample := 0; dump_fields := false; dump_transforms := false;
     config := None; exp_dir := None |}.

(** Two plain corpora. *)
Definition opt_plain : Opt :=
  {| world_size := 1; gpu_ranks := [0]; queue_size := 40; seed := 3435;
     data := [("kp20k", Ex.corpus "kp20k.json"); ("inspec", Ex.corpus "inspec.json")];
     train_from := ""; n_sample := 0; dump_fields := false;
     dump_transforms := false; config := None; exp_dir := None |}.

Definition corpus_dir (path : string) (labels : option (option (list string)))
  : corpus_dict :=
  {| path_src := path; path_tgt := None; label_data := labels; others := [] |}.


(** [-exp_dir] is given and [-config] is not: the parser leaves
    [opt.config] at [None]. *)
Definition opt_config_none : Opt :=
  {| world_size := 1; gpu_ranks := [0]; queue_size := 40; seed := 3435;
     data := [("corpus_1", Ex.corpus "train.json")]; train_from := "";
     n_sample := 0; dump_fields := false; dump_transforms := false;
     config := Some None; exp_dir := Some (Some "exp") |}.

End Inputs.

(** ** The trace monad *)

Section monad_laws.
Context {A B : Type}.

Lemma bind_ret_l (a : A) (k : A -> M.t B) : M.bind (M.ret a) k = k a.
Proof. unfold M.bind, M.ret. destruct (k a). reflexivity. Qed.

Lemma bind_value tr (a : A) (k : A -> M.t B) :
  M.bind (tr, inr a) k = (tr ++ (k a).1, (k a).2).
Proof. unfold M.bind. destruct (k a). reflexivity. Qed.

Lemma bind_raise tr e (k : A -> M.t B) : M.bind (tr, inl e) k = (tr, inl e).
Proof. reflexivity. Qed.

Lemma bind_emit e (k : unit -> M.t B) :
  M.bind (M.emit e) k = (e :: (k tt).1, (k tt).2).
Proof. unfold M.emit, M.bind. destruct (k tt). reflexivity. Qed.

End monad_laws.

Lemma for_each_emit {A} (f : A -> event) (xs : list A) :
  M.for_each xs (fun x _ => M.emit (f x)) tt = (f <$> xs, inr tt).
Proof.
  induction xs as [|x xs IH]; [reflexivity|].
  cbn [M.for_each]. rewrite bind_emit, IH. reflexivity.
Qed.

(** ** The launch *)

Section launch.
Variable opt : Opt.

Let n := length (gpu_ranks opt).

Lemma spawn_consumer_step k :
  spawn_consumer opt k (queue_of opt <$> seq 0 k, consumer_of opt <$> seq 0 k)
  = ([mp_Queue (queue_of opt k); start (consumer_of opt k);
      add_child (consumer_of opt k)],
     inr (queue_of opt <$> seq 0 (S k), consumer_of opt <$> seq 0 (S k))).
Proof.
  unfold spawn_consumer. rewrite length_fmap, length_seq.
  fold (queue_of opt k). fold (consumer_of opt k).
  rewrite bind_emit. unfold M.index.
  rewrite lookup_app_r by (rewrite length_fmap, length_seq; lia).
  rewrite length_fmap, length_seq, Nat.sub_diag. cbn [lookup list_lookup].
  rewrite bind_ret_l, !bind_emit, seq_S, !fmap_app. reflexivity.
Qed.

Lemma spawn_consumers m k :
  M.for_each (seq k m) (spawn_consumer opt)
    (queue_of opt <$> seq 0 k, consumer_of opt <$> seq 0 k)
  = (flat_map (fun i => [mp_Queue (queue_of opt i); start (consumer_of opt i);
                         add_child (consumer_of opt i)]) (seq k m),
     inr (queue_of opt <$> seq 0 (k + m), consumer_of opt <$> seq 0 (k + m))).
Proof.
  revert k. induction m as [|m IH]; intros k.
  - rewrite Nat.add_0_r. reflexivity.
  - cbn [seq M.for_each flat_map]. rewrite spawn_consumer_step, bind_value.
    rewrite IH. cbn [fst snd]. replace (S k + m)%nat with (k + S m)%nat by lia.
    reflexivity.
Qed.

Lemma spawn_producer_step k :
  (k < n)%nat ->
  spawn_producer n (queue_of opt <$> seq 0 n) k (producer_of opt <$> seq 0 k)
  = ([build_train_iter {| stride := n; offset := k |};
      start (producer_of opt k); add_child (producer_of opt k)],
     inr (producer_of opt <$> seq 0 (S k))).
Proof.
  intros Hk. unfold spawn_producer, M.index.
  rewrite list_lookup_fmap, lookup_seq_lt by exact Hk.
  cbn [fmap option_fmap option_map Nat.add].
  rewrite bind_ret_l. fold n. fold (producer_of opt k).
  rewrite lookup_app_r by (rewrite length_fmap, length_seq; lia).
  rewrite length_fmap, length_seq, Nat.sub_diag. cbn [lookup list_lookup].
  rewrite bind_ret_l, !bind_emit, seq_S, fmap_app. reflexivity.
Qed.

Lemma spawn_producers m k :
  (k + m <= n)%nat ->
  M.for_each (seq k m) (spawn_producer n (queue_of opt <$> seq 0 n))
    (producer_of opt <$> seq 0 k)
  = (flat_map (fun i => [build_train_iter {| stride := n; offset := i |};
                         start (producer_of opt i); add_child (producer_of opt i)])
       (seq k m),
     inr (producer_of opt <$> seq 0 (k + m))).
Proof.
  revert k. induction m as [|m IH]; intros k Hk.
  - rewrite Nat.add_0_r. reflexivity.
  - cbn [seq M.for_each flat_map]. rewrite spawn_producer_step, bind_value by lia.
    rewrite IH by lia. cbn [fst snd]. replace (S k + m)%nat with (k + S m)%nat by lia.
    reflexivity.
Qed.

(** A multi-device launch never raises, and makes the calls of
    [launch_trace]. *)
Lemma launch_multi : 1 < world_size opt -> launch opt = (launch_trace opt, inr tt).
Proof.
  intros Hws. unfold launch. apply Z.ltb_lt in Hws. rewrite Hws.
  rewrite !bind_emit. fold n.
  pose proof (spawn_consumers n 0) as Hc. cbn [seq fmap list_fmap] in Hc.
  rewrite Hc, bind_value. cbn [fst snd Nat.add].
  pose proof (spawn_producers n 0 (Nat.le_refl _)) as Hp. cbn [seq fmap list_fmap] in Hp.
  rewrite Hp, bind_value. cbn [fst snd Nat.add].
  rewrite (for_each_emit join), bind_value, (for_each_emit terminate).
  reflexivity.
Qed.

Lemma launch_inline :
  world_size opt <= 1 ->
  launch opt = ([single_main (if (n =? 1)%nat then 0 else -1)], inr tt).
Proof.
  intros Hws. unfold launch. fold n.
  destruct (1 <? world_size opt) eqn:E; [apply Z.ltb_lt in E; lia|].
  destruct (n =? 1)%nat; reflexivity.
Qed.

End launch.

(** ** Before the launch *)

Lemma init_train_returns opt :
  starts_training opt = true -> (_init_train opt).2 = inr tt.
Proof.
  unfold starts_training, _init_train, prepare_fields_transforms.
  destruct (String.eqb (train_from opt) ""), (dump_fields opt),
    (dump_transforms opt), (n_sample opt =? 0); cbn; congruence.
Qed.

Lemma copy_config_returns fs opt :
  config_copy_returns opt = true -> (copy_config fs opt).2 = inr tt.
Proof.
  unfold config_copy_returns, copy_config.
  destruct (config opt) as [[c|]|], (exp_dir opt) as [[d|]|];
    try discriminate; try reflexivity.
  intros _. cbn. destruct (os.path_exists fs d); reflexivity.
Qed.

Lemma copy_config_raises fs opt :
  config_copy_returns opt = false -> (copy_config fs opt).2 = inl TypeError.
Proof.
  unfold config_copy_returns, copy_config.
  destruct (config opt) as [[c|]|], (exp_dir opt) as [[d|]|];
    try discriminate; try reflexivity.
  intros _. cbn. destruct (os.path_exists fs d); reflexivity.
Qed.

(** ** The expansion makes no call *)

Lemma expand_file_silent corpus_id corpus src_file_path d :
  (expand_file corpus_id corpus src_file_path d).1 = [].
Proof.
  unfold expand_file. destruct (label_data corpus) as [[l|]|]; reflexivity.
Qed.

Lemma for_each_silent {A S} (body : A -> S -> M.t S) xs s :
  (forall x s, (body x s).1 = []) -> (M.for_each xs body s).1 = [].
Proof.
  intros Hbody. revert s. induction xs as [|x xs IH]; intros s; [reflexivity|].
  cbn [M.for_each]. specialize (Hbody x s).
  destruct (body x s) as [tr [e|s']]; cbn in *; subst; [reflexivity|].
  specialize (IH s'). destruct (M.for_each xs body s'). exact IH.
Qed.

Lemma expand_corpus_silent fs item d : (expand_corpus fs item d).1 = [].
Proof.
  destruct item as [corpus_id corpus]. unfold expand_corpus.
  destruct (os.path_isdir fs (path_src corpus)); [|reflexivity].
  destruct (length _ =? 0)%nat; [reflexivity|].
  apply for_each_silent. intros. apply expand_file_silent.
Qed.

Lemma expand_data_silent fs data : (expand_data fs data).1 = [].
Proof. apply for_each_silent. intros. apply expand_corpus_silent. Qed.

Lemma shard_assignment_silent G fs opt : (shard_assignment G fs opt).1 = [].
Proof.
  unfold shard_assignment. pose proof (expand_data_silent fs (data opt)) as H.
  destruct (expand_data fs (data opt)) as [tr [e|d]]; cbn in *; subst; reflexivity.
Qed.

(** ** How a run of [train] ends: at the initialisation, at the config
    copy, at the expansion, or after the launch *)

Lemma train_init_fails G fs opt e :
  (_init_train opt).2 = inl e ->
  train G fs opt
  = ([init_logger; validate_train_opts; update_model_opts; validate_model_opts;
      set_random_seed (seed opt)] ++ (_init_train opt).1, inl e).
Proof.
  intros He. unfold train. rewrite !bind_emit.
  destruct (_init_train opt) as [ti [e'|[]]]; cbn in *; congruence.
Qed.

Lemma train_config_fails G fs opt :
  starts_training opt = true ->
  config_copy_returns opt = false ->
  train G fs opt = (prelude fs opt, inl TypeError).
Proof.
  intros Hi Hc. apply init_train_returns in Hi.
  apply (copy_config_raises fs) in Hc.
  unfold train, prelude. rewrite !bind_emit.
  destruct (_init_train opt) as [ti [?|[]]]; [discriminate|].
  destruct (copy_config fs opt) as [tc [e|[]]]; [|discriminate].
  cbn in *. inversion Hc; subst. reflexivity.
Qed.

Lemma train_shards_fail G fs opt e :
  starts_training opt = true ->
  config_copy_returns opt = true ->
  (shard_assignment G fs opt).2 = inl e ->
  train G fs opt = (prelude fs opt, inl e).
Proof.
  intros Hi Hc He. apply init_train_returns in Hi.
  apply (copy_config_returns fs) in Hc.
  pose proof (shard_assignment_silent G fs opt) as Hs.
  unfold train, prelude. rewrite !bind_emit.
  destruct (_init_train opt) as [ti [?|[]]]; [discriminate|].
  destruct (copy_config fs opt) as [tc [?|[]]]; [discriminate|].
  destruct (shard_assignment G fs opt) as [ts [e'|d]]; [|discriminate].
  cbn in *. subst. inversion He; subst. rewrite app_nil_r. reflexivity.
Qed.

Lemma train_launches G fs opt d :
  starts_training opt = true ->
  config_copy_returns opt = true ->
  (shard_assignment G fs opt).2 = inr d ->
  train G fs opt
  = (prelude fs opt ++ (launch (set_data opt d)).1,
     match (launch (set_data opt d)).2 with
     | inl e => inl e
     | inr _ => inr (set_data opt d)
     end).
Proof.
  intros Hi Hc Hd. apply init_train_returns in Hi.
  apply (copy_config_returns fs) in Hc.
  pose proof (shard_assignment_silent G fs opt) as Hs.
  unfold train, prelude. rewrite !bind_emit.
  destruct (_init_train opt) as [ti [?|[]]]; [discriminate|].
  destruct (copy_config fs opt) as [tc [?|[]]]; [discriminate|].
  destruct (shard_assignment G fs opt) as [ts [e'|d']]; [discriminate|].
  cbn in *. subst. inversion Hd; subst.
  destruct (launch (set_data opt d)) as [tl [e|[]]]; cbn;
    rewrite ?app_nil_r, <- ?app_assoc; reflexivity.
Qed.

(** ** The expansion returns on well-formed corpora *)

Lemma expand_file_returns corpus_id corpus src_file_path d :
  label_data corpus <> Some None ->
  exists d', expand_file corpus_id corpus src_file_path d = ([], inr d').
Proof.
  intros Hl. unfold expand_file.
  destruct (label_data corpus) as [[l|]|]; [| congruence |];
    rewrite bind_ret_l; eexists; reflexivity.
Qed.

Lemma for_each_returns {A S} (body : A -> S -> M.t S) xs s :
  (forall x s, In x xs -> exists s', body x s = ([], inr s')) ->
  exists s', M.for_each xs body s = ([], inr s').
Proof.
  revert s. induction xs as [|x xs IH]; intros s Hbody; [eexists; reflexivity|].
  cbn [M.for_each]. destruct (Hbody x s (or_introl eq_refl)) as [s1 ->].
  rewrite bind_value. destruct (IH s1) as [s2 ->]; [|eexists; reflexivity].
  intros y t Hy. apply Hbody. right. exact Hy.
Qed.

Lemma expand_corpus_returns fs item d :
  expandable fs item = true ->
  exists d', expand_corpus fs item d = ([], inr d').
Proof.
  destruct item as [corpus_id corpus]. unfold expandable, expand_corpus. cbn [snd].
  destruct (os.path_isdir fs (path_src corpus)); [|eexists; reflexivity].
  intros [Hn Hl]%andb_true_iff. apply negb_true_iff in Hn. rewrite Hn.
  apply negb_true_iff, bool_decide_eq_false in Hl.
  apply for_each_returns. intros. apply expand_file_returns, Hl.
Qed.

Lemma expand_data_returns fs data :
  forallb (expandable fs) data = true ->
  exists d, expand_data fs data = ([], inr d).
Proof.
  intros H. apply for_each_returns. intros item d Hin.
  apply expand_corpus_returns. rewrite forallb_forall in H. apply H, Hin.
Qed.

Lemma shard_assignment_returns G fs opt :
  forallb (expandable fs) (data opt) = true ->
  exists d, shard_assignment G fs opt = ([], inr d).
Proof.
  intros H. destruct (expand_data_returns fs (data opt) H) as [d Hd].
  unfold shard_assignment. rewrite Hd, bind_value. eexists; reflexivity.
Qed.

(** ** Observations on the traces of a run *)

Lemma omap_flat_map {A B C} (f : B -> option C) (g : A -> list B) l :
  omap f (flat_map g l) = flat_map (fun a => omap f (g a)) l.
Proof.
  induction l as [|a l IH]; [reflexivity|].
  cbn [flat_map]. rewrite omap_app, IH. reflexivity.
Qed.

Lemma flat_map_singleton {A B} (f : A -> B) (l : list A) :
  flat_map (fun a => [f a]) l = f <$> l.
Proof. induction l as [|a l IH]; [reflexivity|]. cbn. rewrite IH. reflexivity. Qed.

Lemma flat_map_nil {A B} (l : list A) : flat_map (fun _ => @nil B) l = [].
Proof. induction l as [|a l IH]; [reflexivity|]. exact IH. Qed.

Lemma omap_fmap_some {A B C} (f : B -> option C) (g : A -> B) (h : A -> C)
    (l : list A) :
  (forall a, f (g a) = Some (h a)) -> omap f (g <$> l) = h <$> l.
Proof.
  intros H. induction l as [|a l IH]; [reflexivity|].
  cbn. rewrite H, IH. reflexivity.
Qed.

Lemma omap_fmap_none {A B C} (f : B -> option C) (g : A -> B) (l : list A) :
  (forall a, f (g a) = None) -> omap f (g <$> l) = [].
Proof.
  intros H. induction l as [|a l IH]; [reflexivity|].
  cbn. rewrite H, IH. reflexivity.
Qed.

(** An observation of the launch sees nothing in the calls made before. *)
Lemma prelude_no_launch_event fs opt :
  Forall (fun e => is_launch_event e = false) (prelude fs opt).
Proof.
  unfold prelude, _init_train, prepare_fields_transforms, copy_config.
  destruct (String.eqb (train_from opt) ""), (dump_fields opt),
    (dump_transforms opt), (n_sample opt =? 0),
    (config opt) as [[c|]|], (exp_dir opt) as [[d|]|];
    cbn; try destruct (os.path_exists fs _); repeat constructor.
Qed.

Lemma omap_quiet {C} (f : event -> option C) (tr : trace) :
  (forall e, is_launch_event e = false -> f e = None) ->
  Forall (fun e => is_launch_event e = false) tr ->
  omap f tr = [].
Proof.
  intros Hf Hq. induction Hq as [|e l He _ IH]; [reflexivity|].
  cbn. rewrite (Hf e He). exact IH.
Qed.

Lemma omap_prelude {C} (f : event -> option C) fs opt :
  (forall e, is_launch_event e = false -> f e = None) ->
  omap f (prelude fs opt) = [].
Proof. intros Hf. apply omap_quiet, prelude_no_launch_event. exact Hf. Qed.

Ltac observe_prelude :=
  rewrite omap_prelude by (intros []; cbn; congruence).

Ltac observe_launch :=
  unfold launch_trace;
  rewrite ?omap_app, ?omap_flat_map; cbn [omap list_omap];
  rewrite ?flat_map_singleton, ?flat_map_nil;
  rewrite ?(omap_fmap_none _ join), ?(omap_fmap_none _ terminate) by reflexivity;
  rewrite ?app_nil_r; cbn [app].

Section launch_observed.
Variable opt : Opt.

Let ordinals := seq 0 (length (gpu_ranks opt)).

Lemma started_launch :
  started (launch_trace opt)
  = (consumer_of opt <$> ordinals) ++ (producer_of opt <$> ordinals).
Proof. unfold started. observe_launch. reflexivity. Qed.

Lemma registered_launch :
  registered (launch_trace opt)
  = (consumer_of opt <$> ordinals) ++ (producer_of opt <$> ordinals).
Proof. unfold registered. observe_launch. reflexivity. Qed.

Lemma semaphores_launch :
  semaphores (launch_trace opt) = [world_size opt * queue_size opt].
Proof. unfold semaphores. observe_launch. reflexivity. Qed.

Lemma queues_made_launch :
  queues_made (launch_trace opt) = queue_of opt <$> ordinals.
Proof. unfold queues_made. observe_launch. reflexivity. Qed.

Lemma inline_runs_launch : inline_runs (launch_trace opt) = [].
Proof. unfold inline_runs. observe_launch. reflexivity. Qed.

End launch_observed.

(** ** Runs that reach the launch *)

(** A run reaches the launch when the initialisation returns
    ([starts_training]), the copy of the config file returns
    ([config_copy_returns]) and every corpus can be expanded
    ([expandable]). *)

Lemma train_single_run G fs opt :
  starts_training opt = true ->
  config_copy_returns opt = true ->
  forallb (expandable fs) (data opt) = true ->
  world_size opt <= 1 ->
  exists d,
    train G fs opt
    = (prelude fs opt
         ++ [single_main (if (length (gpu_ranks opt) =? 1)%nat then 0 else -1)],
       inr (set_data opt d)).
Proof.
  intros Hi Hc He Hws. destruct (shard_assignment_returns G fs opt He) as [d Hd].
  exists d. rewrite (train_launches G fs opt d Hi Hc) by (rewrite Hd; reflexivity).
  rewrite launch_inline by exact Hws. reflexivity.
Qed.

Lemma train_multi_run G fs opt :
  starts_training opt = true ->
  config_copy_returns opt = true ->
  forallb (expandable fs) (data opt) = true ->
  1 < world_size opt ->
  exists d,
    train G fs opt = (prelude fs opt ++ launch_trace opt, inr (set_data opt d)).
Proof.
  intros Hi Hc He Hws. destruct (shard_assignment_returns G fs opt He) as [d Hd].
  exists d. rewrite (train_launches G fs opt d Hi Hc) by (rewrite Hd; reflexivity).
  rewrite launch_multi by exact Hws. reflexivity.
Qed.

(** ** Mode selection *)

(** C1, as the code has it: with [world_size <= 1] a run that reaches the
    launch starts no process and runs the compute step inline exactly once;
    the device is 0 when [opt.gpu_ranks] has exactly one entry and the
    sentinel -1 otherwise, whatever [world_size] is. *)
Theorem train_inline_device G fs opt :
  starts_training opt = true ->
  config_copy_returns opt = true ->
  forallb (expandable fs) (data opt) = true ->
  world_size opt <= 1 ->
  (exists opt', (train G fs opt).2 = inr opt')
  /\ started (train G fs opt).1 = []
  /\ queues_made (train G fs opt).1 = []
  /\ inline_runs (train G fs opt).1
     = [if (length (gpu_ranks opt) =? 1)%nat then 0 else -1].
Proof.
  intros Hi Hc He Hws. destruct (train_single_run G fs opt Hi Hc He Hws) as [d ->].
  cbn [fst snd]. split; [eexists; reflexivity|].
  unfold started, queues_made, inline_runs. rewrite !omap_app.
  repeat observe_prelude. repeat split; reflexivity.
Qed.

Lemma train_inline_device_witness :
  (exists opt', (train Ex.G0 Ex.no_fs Ex.opt0).2 = inr opt')
  /\ started (train Ex.G0 Ex.no_fs Ex.opt0).1 = []
  /\ queues_made (train Ex.G0 Ex.no_fs Ex.opt0).1 = []
  /\ inline_runs (train Ex.G0 Ex.no_fs Ex.opt0).1 = [-1].
Proof.
  apply (train_inline_device Ex.G0 Ex.no_fs Ex.opt0);
    [reflexivity | reflexivity | reflexivity | cbn; lia].
Defined.

(** C1 as stated fails on the default options: [world_size] is 1, no GPU
    rank is configured, and the compute step runs on device -1, not 0. *)
Lemma world_size_one_runs_on_cpu :
  world_size Ex.opt0 = 1
  /\ inline_runs (train Ex.G0 Ex.no_fs Ex.opt0).1 = [-1]
  /\ inline_runs (train Ex.G0 Ex.no_fs Ex.opt0).1 <> [0].
Proof.
  split; [reflexivity|]. split; [reflexivity|].
  intros H. vm_compute in H. discriminate H.
Qed.

(** ** Capacities *)

(** C6: in a multi-device run the semaphore is made with
    [world_size * queue_size] permits, one queue is made per worker, each
    with [maxsize = queue_size], and every process started is given one of
    these queues. *)
Theorem permit_pool_and_channel_capacity G fs opt :
  starts_training opt = true ->
  config_copy_returns opt = true ->
  forallb (expandable fs) (data opt) = true ->
  1 < world_size opt ->
  semaphores (train G fs opt).1 = [world_size opt * queue_size opt]
  /\ length (queues_made (train G fs opt).1) = length (gpu_ranks opt)
  /\ Forall (fun q => maxsize q = queue_size opt) (queues_made (train G fs opt).1)
  /\ Forall (fun p => In (queue_of_process p) (queues_made (train G fs opt).1))
       (started (train G fs opt).1).
Proof.
  intros Hi Hc He Hws. destruct (train_multi_run G fs opt Hi Hc He Hws) as [d ->].
  cbn [fst snd].
  assert (Hq : queues_made (prelude fs opt ++ launch_trace opt)
               = queue_of opt <$> seq 0 (length (gpu_ranks opt))).
  { unfold queues_made at 1. rewrite omap_app. observe_prelude.
    apply queues_made_launch. }
  assert (Hs : started (prelude fs opt ++ launch_trace opt)
               = (consumer_of opt <$> seq 0 (length (gpu_ranks opt)))
                 ++ (producer_of opt <$> seq 0 (length (gpu_ranks opt)))).
  { unfold started at 1. rewrite omap_app. observe_prelude.
    apply started_launch. }
  rewrite Hq, Hs. repeat split.
  - unfold semaphores. rewrite omap_app. observe_prelude.
    apply semaphores_launch.
  - rewrite length_fmap, length_seq. reflexivity.
  - apply Forall_fmap, Forall_forall. reflexivity.
  - apply Forall_app. split; apply Forall_fmap, Forall_forall; intros i Hin;
      cbn; apply in_map, list_elem_of_In, Hin.
Qed.

Lemma permit_pool_and_channel_capacity_witness :
  semaphores (train Ex.G0 Ex.no_fs Ex.opt_two_of_four).1 = [4 * 40]
  /\ length (queues_made (train Ex.G0 Ex.no_fs Ex.opt_two_of_four).1) = 2%nat
  /\ Forall (fun q => maxsize q = 40)
       (queues_made (train Ex.G0 Ex.no_fs Ex.opt_two_of_four).1)
  /\ Forall (fun p => In (queue_of_process p)
                        (queues_made (train Ex.G0 Ex.no_fs Ex.opt_two_of_four).1))
       (started (train Ex.G0 Ex.no_fs Ex.opt_two_of_four).1).
Proof.
  apply (permit_pool_and_channel_capacity Ex.G0 Ex.no_fs Ex.opt_two_of_four);
    [reflexivity | reflexivity | reflexivity | cbn; lia].
Defined.

(** ** Spawning and tear-down *)

#[local] Instance consumer_of_inj opt : Inj (=) (=) (consumer_of opt).
Proof. intros i j H. injection H. auto. Qed.

#[local] Instance producer_of_inj opt : Inj (=) (=) (producer_of opt).
Proof. intros i j H. injection H. auto. Qed.

Lemma filter_fmap_all {A B} (P : B -> bool) (f : A -> B) (l : list A) :
  (forall a, P (f a) = true) -> filter (fun b => P b) (f <$> l) = f <$> l.
Proof.
  intros H. induction l as [|a l IH]; [reflexivity|].
  cbn [fmap list_fmap]. rewrite filter_cons_True by (rewrite H; exact I).
  f_equal. exact IH.
Qed.

Lemma filter_fmap_none {A B} (P : B -> bool) (f : A -> B) (l : list A) :
  (forall a, P (f a) = false) -> filter (fun b => P b) (f <$> l) = [].
Proof.
  intros H. induction l as [|a l IH]; [reflexivity|].
  cbn [fmap list_fmap]. rewrite filter_cons_False by (rewrite H; exact id).
  exact IH.
Qed.

Lemma started_multi fs opt :
  started (prelude fs opt ++ launch_trace opt)
  = (consumer_of opt <$> seq 0 (length (gpu_ranks opt)))
    ++ (producer_of opt <$> seq 0 (length (gpu_ranks opt))).
Proof.
  unfold started at 1. rewrite omap_app. observe_prelude. apply started_launch.
Qed.

(** C7, as the code has it: a multi-device run that reaches the launch
    starts one consumer and one producer per entry of [opt.gpu_ranks]
    (not per unit of [world_size]), then joins every consumer, then
    terminates every producer, and returns. *)
Theorem spawn_and_teardown G fs opt :
  starts_training opt = true ->
  config_copy_returns opt = true ->
  forallb (expandable fs) (data opt) = true ->
  1 < world_size opt ->
  exists pre cs ps opt',
    train G fs opt = (pre ++ (join <$> cs) ++ (terminate <$> ps), inr opt')
    /\ started pre = cs ++ ps
    /\ joined pre = [] /\ terminated pre = []
    /\ length cs = length (gpu_ranks opt)
    /\ length ps = length (gpu_ranks opt)
    /\ Forall (fun p => is_consumer p = true) cs
    /\ Forall (fun p => is_producer p = true) ps
    /\ NoDup cs /\ NoDup ps.
Proof.
  intros Hi Hc He Hws. destruct (train_multi_run G fs opt Hi Hc He Hws) as [d Hrun].
  set (ordinals := seq 0 (length (gpu_ranks opt))).
  set (spawn :=
         [mp_Semaphore (world_size opt * queue_size opt); mp_SimpleQueue;
          new_ErrorHandler]
         ++ flat_map (fun i => [mp_Queue (queue_of opt i); start (consumer_of opt i);
                                add_child (consumer_of opt i)]) ordinals
         ++ flat_map (fun i => [build_train_iter
                                  {| stride := length (gpu_ranks opt); offset := i |};
                                start (producer_of opt i);
                                add_child (producer_of opt i)]) ordinals).
  exists (prelude fs opt ++ spawn), (consumer_of opt <$> ordinals),
    (producer_of opt <$> ordinals), (set_data opt d).
  split.
  { rewrite Hrun. f_equal. unfold launch_trace, spawn. fold ordinals.
    rewrite <- !app_assoc. reflexivity. }
  unfold started, joined, terminated, spawn. rewrite !omap_app.
  repeat observe_prelude. rewrite !omap_flat_map. cbn [omap list_omap app].
  rewrite !flat_map_singleton, !flat_map_nil.
  rewrite !length_fmap. unfold ordinals. rewrite length_seq.
  repeat split; try reflexivity.
  - apply Forall_fmap, Forall_forall. reflexivity.
  - apply Forall_fmap, Forall_forall. reflexivity.
  - apply (NoDup_fmap_2 _), NoDup_seq.
  - apply (NoDup_fmap_2 _), NoDup_seq.
Qed.

Lemma spawn_and_teardown_witness :
  exists pre cs ps opt',
    train Ex.G0 Ex.no_fs Ex.opt_two_of_four
    = (pre ++ (join <$> cs) ++ (terminate <$> ps), inr opt')
    /\ started pre = cs ++ ps
    /\ joined pre = [] /\ terminated pre = []
    /\ length cs = 2%nat /\ length ps = 2%nat
    /\ Forall (fun p => is_consumer p = true) cs
    /\ Forall (fun p => is_producer p = true) ps
    /\ NoDup cs /\ NoDup ps.
Proof.
  apply (spawn_and_teardown Ex.G0 Ex.no_fs Ex.opt_two_of_four);
    [reflexivity | reflexivity | reflexivity | cbn; lia].
Defined.

(** C7 as stated fails when [world_size] counts the ranks of several
    nodes: with [world_size = 4] and two local ranks, two consumers and two
    producers are started, not four. *)
Lemma two_of_four_workers_spawned :
  world_size Ex.opt_two_of_four = 4
  /\ length (filter (fun p => is_consumer p)
               (started (train Ex.G0 Ex.no_fs Ex.opt_two_of_four).1)) = 2%nat
  /\ length (filter (fun p => is_producer p)
               (started (train Ex.G0 Ex.no_fs Ex.opt_two_of_four).1)) = 2%nat
  /\ length (filter (fun p => is_consumer p)
               (started (train Ex.G0 Ex.no_fs Ex.opt_two_of_four).1))
     <> Z.to_nat (world_size Ex.opt_two_of_four).
Proof.
  split; [reflexivity|]. split; [reflexivity|]. split; [reflexivity|].
  intros H. vm_compute in H. discriminate H.
Qed.

(** ** Striding *)

Lemma filter_seq_eq (P : nat -> bool) m a n :
  (forall i, P i = (m =? i)%nat) ->
  filter (fun i => P i) (seq a n)
  = if bool_decide (a <= m < a + n)%nat then [m] else [].
Proof.
  intros HP. revert a. induction n as [|n IH]; intros a.
  - rewrite bool_decide_eq_false_2 by lia. reflexivity.
  - cbn [seq]. destruct (decide (m = a)) as [->|Hne].
    + rewrite filter_cons_True by (rewrite HP, Nat.eqb_refl; exact I).
      rewrite IH, bool_decide_eq_false_2 by lia.
      rewrite bool_decide_eq_true_2 by lia. reflexivity.
    + rewrite filter_cons_False.
      2:{ rewrite HP. apply Nat.eqb_neq in Hne. rewrite Hne. exact id. }
      rewrite IH. rewrite (bool_decide_ext _ (a <= m < a + S n)%nat) by lia.
      reflexivity.
Qed.

Lemma filter_fmap {A B} (P : B -> bool) (f : A -> B) (l : list A) :
  filter (fun b => P b) (f <$> l) = f <$> filter (fun a => P (f a)) l.
Proof.
  induction l as [|a l IH]; [reflexivity|].
  cbn [fmap list_fmap]. destruct (P (f a)) eqn:E.
  - rewrite !filter_cons_True by (rewrite E; exact I).
    cbn [fmap list_fmap]. f_equal. exact IH.
  - rewrite !filter_cons_False by (rewrite E; exact id). exact IH.
Qed.

(** C8, as the code has it: the producer of ordinal [i] is given the
    iterator built with [stride = len(opt.gpu_ranks)] (not [world_size])
    and [offset = i], and the queue of consumer [i]; read as positions
    modulo the stride, the iterators of one run share no position and
    leave none out. *)
Theorem producer_iterators G fs opt :
  starts_training opt = true ->
  config_copy_returns opt = true ->
  forallb (expandable fs) (data opt) = true ->
  1 < world_size opt ->
  let n := length (gpu_ranks opt) in
  let tr := (train G fs opt).1 in
  let ps := filter (fun p => is_producer p) (started tr) in
  length ps = n
  /\ iterators_built tr = (fun i => {| stride := n; offset := i |}) <$> seq 0 n
  /\ (forall i, (i < n)%nat ->
        exists p, ps !! i = Some p
                  /\ iter_of_process p = Some {| stride := n; offset := i |}
                  /\ queue_of_process p = queue_of opt i
                  /\ In (start (consumer_of opt i)) tr)
  /\ (forall position, (0 < n)%nat ->
        filter (fun p => serves position p) ps = [producer_of opt (position mod n)]).
Proof.
  intros Hi Hc He Hws n tr ps. subst tr ps.
  destruct (train_multi_run G fs opt Hi Hc He Hws) as [d ->]. cbn [fst snd].
  rewrite started_multi, filter_app. fold n.
  rewrite (filter_fmap_none is_producer) by reflexivity.
  rewrite (filter_fmap_all is_producer) by reflexivity. cbn [app].
  split; [rewrite length_fmap, length_seq; reflexivity|].
  split.
  { unfold iterators_built. rewrite omap_app. observe_prelude. observe_launch.
    reflexivity. }
  split.
  - intros i Hlt. exists (producer_of opt i).
    rewrite list_lookup_fmap, lookup_seq_lt by exact Hlt.
    repeat split. apply in_or_app. right. unfold launch_trace.
    apply in_or_app. right. apply in_or_app. left.
    apply in_flat_map. exists i. split; [apply in_seq; fold n; lia|].
    right. left. reflexivity.
  - intros position Hn. rewrite filter_fmap.
    rewrite (filter_seq_eq _ (position mod n)).
    + rewrite bool_decide_eq_true_2; [reflexivity|].
      pose proof (Nat.mod_upper_bound position n). lia.
    + intros i. reflexivity.
Qed.

Lemma producer_iterators_witness :
  let tr := (train Ex.G0 Ex.no_fs Ex.opt_two_of_four).1 in
  let ps := filter (fun p => is_producer p) (started tr) in
  length ps = 2%nat
  /\ iterators_built tr = (fun i => {| stride := 2; offset := i |}) <$> seq 0 2
  /\ (forall i, (i < 2)%nat ->
        exists p, ps !! i = Some p
                  /\ iter_of_process p = Some {| stride := 2; offset := i |}
                  /\ queue_of_process p = queue_of Ex.opt_two_of_four i
                  /\ In (start (consumer_of Ex.opt_two_of_four i)) tr)
  /\ (forall position, (0 < 2)%nat ->
        filter (fun p => serves position p) ps
        = [producer_of Ex.opt_two_of_four (position mod 2)]).
Proof.
  apply (producer_iterators Ex.G0 Ex.no_fs Ex.opt_two_of_four);
    [reflexivity | reflexivity | reflexivity | cbn; lia].
Defined.

(** C8 as stated fails on the same options: the iterators are built with
    stride 2, the number of local ranks, while [world_size] is 4. *)
Lemma stride_is_local_rank_count :
  world_size Ex.opt_two_of_four = 4
  /\ iterators_built (train Ex.G0 Ex.no_fs Ex.opt_two_of_four).1
     = [{| stride := 2; offset := 0 |}; {| stride := 2; offset := 1 |}]
  /\ ~ (forall i p,
          filter (fun p => is_producer p)
            (started (train Ex.G0 Ex.no_fs Ex.opt_two_of_four).1) !! i = Some p ->
          iter_of_process p
          = Some {| stride := Z.to_nat (world_size Ex.opt_two_of_four);
                    offset := i |}).
Proof.
  split; [reflexivity|]. split; [reflexivity|].
  intros H. specialize (H 0%nat _ eq_refl). vm_compute in H. discriminate H.
Qed.

(** ** Two passes *)

Lemma split_order {A} (P Q : A -> bool) (t1 t2 : list A) :
  Forall (fun e => P e = false) t1 ->
  Forall (fun e => Q e = false) t2 ->
  forall i j e1 e2,
    (t1 ++ t2) !! i = Some e1 -> P e1 = true ->
    (t1 ++ t2) !! j = Some e2 -> Q e2 = true ->
    (j < i)%nat.
Proof.
  intros H1 H2 i j e1 e2 Hi HP Hj HQ.
  apply lookup_app_Some in Hi as [Hi|[Hle Hi]].
  { pose proof (Forall_lookup_1 _ _ _ _ H1 Hi) as Hf. cbn in Hf. congruence. }
  apply lookup_app_Some in Hj as [Hj|[_ Hj]].
  - apply lookup_lt_Some in Hj. lia.
  - pose proof (Forall_lookup_1 _ _ _ _ H2 Hj) as Hf. cbn in Hf. congruence.
Qed.

Lemma prelude_no_producer_start fs opt :
  Forall (fun e => producer_start e = false) (prelude fs opt).
Proof.
  eapply Forall_impl; [apply prelude_no_launch_event|].
  intros [] H; cbn in *; congruence.
Qed.

(** C9: in a multi-device run every consumer is started and registered
    with the error handler before the first producer is started: the trace
    splits into a part that starts and registers all the consumers and no
    producer, and a part that starts the producers and no consumer. *)
Theorem consumers_before_producers G fs opt :
  starts_training opt = true ->
  config_copy_returns opt = true ->
  forallb (expandable fs) (data opt) = true ->
  1 < world_size opt ->
  let n := length (gpu_ranks opt) in
  let tr := (train G fs opt).1 in
  (exists t1 t2,
      tr = t1 ++ t2
      /\ started t1 = consumer_of opt <$> seq 0 n
      /\ registered t1 = consumer_of opt <$> seq 0 n
      /\ started t2 = producer_of opt <$> seq 0 n
      /\ registered t2 = producer_of opt <$> seq 0 n)
  /\ (forall i j e1 e2,
        tr !! i = Some e1 -> producer_start e1 = true ->
        tr !! j = Some e2 -> consumer_event e2 = true ->
        (j < i)%nat).
Proof.
  intros Hi Hc He Hws n tr. subst tr.
  destruct (train_multi_run G fs opt Hi Hc He Hws) as [d ->]. cbn [fst snd].
  set (ordinals := seq 0 n).
  set (t1 :=
         prelude fs opt
         ++ [mp_Semaphore (world_size opt * queue_size opt); mp_SimpleQueue;
             new_ErrorHandler]
         ++ flat_map (fun i => [mp_Queue (queue_of opt i); start (consumer_of opt i);
                                add_child (consumer_of opt i)]) ordinals).
  set (t2 :=
         flat_map (fun i => [build_train_iter {| stride := n; offset := i |};
                             start (producer_of opt i);
                             add_child (producer_of opt i)]) ordinals
         ++ (join <$> (consumer_of opt <$> ordinals))
         ++ (terminate <$> (producer_of opt <$> ordinals))).
  assert (Htr : prelude fs opt ++ launch_trace opt = t1 ++ t2).
  { unfold launch_trace, t1, t2. fold n. fold ordinals.
    rewrite <- !app_assoc. reflexivity. }
  rewrite Htr. split.
  - exists t1, t2. split; [reflexivity|].
    unfold started, registered, t1, t2. rewrite !omap_app.
    repeat observe_prelude. rewrite !omap_flat_map. cbn [omap list_omap app].
    rewrite !flat_map_singleton.
    rewrite !(omap_fmap_none _ join), !(omap_fmap_none _ terminate) by reflexivity.
    rewrite !app_nil_r. repeat split; reflexivity.
  - apply split_order.
    + unfold t1. rewrite !Forall_app. split; [apply prelude_no_producer_start|].
      split; [repeat constructor|].
      apply Forall_flat_map, Forall_forall. intros i _. repeat constructor.
    + unfold t2. rewrite !Forall_app. split; [|split].
      * apply Forall_flat_map, Forall_forall. intros i _. repeat constructor.
      * apply Forall_fmap, Forall_forall. reflexivity.
      * apply Forall_fmap, Forall_forall. reflexivity.
Qed.

Lemma consumers_before_producers_witness :
  let tr := (train Ex.G0 Ex.no_fs Ex.opt_two_of_four).1 in
  (exists t1 t2,
      tr = t1 ++ t2
      /\ started t1 = consumer_of Ex.opt_two_of_four <$> seq 0 2
      /\ registered t1 = consumer_of Ex.opt_two_of_four <$> seq 0 2
      /\ started t2 = producer_of Ex.opt_two_of_four <$> seq 0 2
      /\ registered t2 = producer_of Ex.opt_two_of_four <$> seq 0 2)
  /\ (forall i j e1 e2,
        tr !! i = Some e1 -> producer_start e1 = true ->
        tr !! j = Some e2 -> consumer_event e2 = true ->
        (j < i)%nat).
Proof.
  apply (consumers_before_producers Ex.G0 Ex.no_fs Ex.opt_two_of_four);
    [reflexivity | reflexivity | reflexivity | cbn; lia].
Defined.

(** ** The data files of a directory *)

Lemma found_paths_app w1 w2 :
  found_paths (w1 ++ w2) = found_paths w1 ++ found_paths w2.
Proof. apply flat_map_app. Qed.

Lemma found_paths_cons root dirs files w :
  found_paths ((root, dirs, files) :: w)
  = (os.path_join root <$> filter (fun file => Str.endswith file ".json") files)
    ++ found_paths w.
Proof. reflexivity. Qed.

Lemma filenames_cons e es :
  os.filenames (e :: es) = os.filenames [e] ++ os.filenames es.
Proof. destruct e; reflexivity. Qed.

Lemma data_files_node_Dir n es : os.data_files_node (os.Dir n es) = os.data_files es.
Proof.
  cbn [os.data_files_node]. induction es as [|e es IH]; [reflexivity|].
  cbn [os.data_files foldr]. rewrite IH. reflexivity.
Qed.

Lemma length_found_node e :
  forall top,
    (length (filter (fun file => Str.endswith file ".json") (os.filenames [e]))
     + length (found_paths (os.walk_node top e)))%nat
    = os.data_files_node e.
Proof.
  induction e as [n|n es IH] using os.fsnode_nested_ind; intros top.
  - cbn. destruct (Str.endswith n ".json"); reflexivity.
  - rewrite data_files_node_Dir. cbn [os.walk_node os.filenames omap list_omap].
    rewrite filter_nil, found_paths_cons, length_app, length_fmap. cbn [length Nat.add].
    generalize (os.path_join top n) as root. intros root.
    induction IH as [|e es He _ IHes]; [reflexivity|].
    rewrite filenames_cons, filter_app, length_app. cbn [flat_map].
    rewrite found_paths_app, length_app. cbn [os.data_files foldr].
    specialize (He root). fold (os.data_files es). lia.
Qed.

(** The walk finds as many data files as the directory holds. *)
Lemma length_found_listing es :
  forall top,
    length (found_paths
              ((top, os.dirnames es, os.filenames es)
                 :: flat_map (os.walk_node top) es))
    = os.data_files es.
Proof.
  intros top. rewrite found_paths_cons, length_app, length_fmap.
  induction es as [|e es IH]; [reflexivity|].
  rewrite filenames_cons, filter_app, length_app. cbn [flat_map].
  rewrite found_paths_app, length_app. cbn [os.data_files foldr].
  pose proof (length_found_node e top). fold (os.data_files es). lia.
Qed.

Lemma length_src_file_paths fs path es :
  os.listing fs path = Some es ->
  length (src_file_paths fs path) = os.data_files es.
Proof.
  intros Hes. unfold src_file_paths.
  rewrite (Permutation_length (merge_sort_Permutation _ _)).
  unfold os.walk. rewrite Hes. apply length_found_listing.
Qed.

(** ** A directory without data files *)


Lemma init_train_exits opt :
  starts_training opt = false -> (_init_train opt).2 = inl SystemExit.
Proof.
  unfold starts_training, _init_train, prepare_fields_transforms.
  destruct (String.eqb (train_from opt) ""), (dump_fields opt),
    (dump_transforms opt), (n_sample opt =? 0); cbn; congruence.
Qed.




(** ** The order of [sorted] *)

Lemma compare_not_Gt_trans a b c :
  String.compare a b <> Gt -> String.compare b c <> Gt -> String.compare a c <> Gt.
Proof.
  revert b c. induction a as [|x a IH]; intros [|y b] [|z c]; cbn;
    try congruence.
  unfold Ascii.compare.
  destruct (N.compare_spec (N_of_ascii x) (N_of_ascii y)),
    (N.compare_spec (N_of_ascii y) (N_of_ascii z)),
    (N.compare_spec (N_of_ascii x) (N_of_ascii z));
    try congruence; try lia.
  apply IH.
Qed.

#[local] Instance le_total : Total Str.le.
Proof. intros a b. apply String.leb_total. Qed.

#[local] Instance le_antisymm : AntiSymm (=) Str.le.
Proof. intros a b. apply String.leb_antisym. Qed.

#[local] Instance le_trans : Transitive Str.le.
Proof.
  intros a b c. unfold Str.le, String.leb. intros Hab Hbc.
  pose proof (compare_not_Gt_trans a b c) as H.
  destruct (String.compare a b), (String.compare b c), (String.compare a c);
    try reflexivity; try discriminate; exfalso; apply H; congruence.
Qed.


(** ** Listing order *)

Lemma found_by_entry top es :
  Permutation
    (found_paths ((top, os.dirnames es, os.filenames es)
                    :: flat_map (os.walk_node top) es))
    (flat_map (contribution top) es).
Proof.
  rewrite found_paths_cons. induction es as [|e es IH]; [reflexivity|].
  rewrite filenames_cons, filter_app, fmap_app. cbn [flat_map].
  rewrite found_paths_app, <- IH. unfold contribution.
  rewrite <- !app_assoc. apply Permutation_app_head.
  rewrite !app_assoc. apply Permutation_app_tail, Permutation_app_comm.
Qed.








(** ** The shuffle *)

Lemma swap_Permutation {A} (i j : nat) (x : list A) : Permutation (swap i j x) x.
Proof.
  unfold swap. destruct (x !! i) as [a|] eqn:Hi; [|reflexivity].
  destruct (x !! j) as [b|] eqn:Hj; [|reflexivity].
  pose proof (lookup_lt_Some _ _ _ Hi) as Hli.
  pose proof (lookup_lt_Some _ _ _ Hj) as Hlj.
  apply Permutation_inj. split; [rewrite !length_insert; reflexivity|].
  exists (fun k => if decide (k = i) then j else if decide (k = j) then i else k).
  split.
  - intros k1 k2. repeat case_decide; congruence.
  - intros k. repeat case_decide; subst.
    + rewrite list_lookup_insert_eq by (rewrite length_insert; exact Hli).
      symmetry. exact Hj.
    + rewrite list_lookup_insert_ne by congruence.
      rewrite list_lookup_insert_eq by exact Hlj. symmetry. exact Hi.
    + rewrite !list_lookup_insert_ne by congruence. reflexivity.
Qed.

(** In the loop of the shuffle both positions exist: the exchange never
    falls through. *)
Lemma swap_in_range {A} G s (i : nat) (x : list A) :
  (i < length x)%nat ->
  exists a b,
    x !! i = Some a /\ x !! (random_interval G s i).1 = Some b
    /\ swap i (random_interval G s i).1 x
       = <[i:=b]> (<[(random_interval G s i).1:=a]> x).
Proof.
  intros Hi. pose proof (random_interval_le G s i) as Hj.
  destruct (lookup_lt_is_Some_2 x i Hi) as [a Ha].
  destruct (lookup_lt_is_Some_2 x (random_interval G s i).1 ltac:(lia)) as [b Hb].
  exists a, b. unfold swap. rewrite Ha, Hb. repeat split.
Qed.

Lemma shuffle_from_Permutation {A} G i s (x : list A) :
  Permutation (shuffle_from G i s x) x.
Proof.
  revert s x. induction i as [|i IH]; intros s x; [reflexivity|].
  cbn [shuffle_from]. destruct (random_interval G s (S i)) as [j s'].
  rewrite IH. apply swap_Permutation.
Qed.

(** The shuffle reorders and neither drops nor repeats an item. *)
Lemma shuffle_Permutation {A} G seed (x : list A) : Permutation (shuffle G seed x) x.
Proof. apply shuffle_from_Permutation. Qed.

(** ** Dicts *)

Lemma dict_set_fresh {V} k (v : V) (d : dict V) :
  ~ elem_of k (keys d) -> dict_set k v d = d ++ [(k, v)].
Proof.
  induction d as [|[k' v'] d IH]; intros Hk; [reflexivity|].
  cbn [dict_set]. destruct (String.eqb k' k) eqn:E.
  - exfalso. apply Hk. apply String.eqb_eq in E. subst. apply list_elem_of_here.
  - cbn. rewrite IH; [reflexivity|]. intros Hin. apply Hk.
    apply list_elem_of_further, Hin.
Qed.

Lemma dict_set_keys {V} k (v : V) (d : dict V) :
  keys (dict_set k v d)
  = if bool_decide (elem_of k (keys d)) then keys d else keys d ++ [k].
Proof.
  induction d as [|[k' v'] d IH]; [reflexivity|].
  cbn [dict_set]. destruct (String.eqb k' k) eqn:E.
  - apply String.eqb_eq in E. subst.
    rewrite bool_decide_eq_true_2 by apply list_elem_of_here. reflexivity.
  - apply String.eqb_neq in E. unfold keys in *. cbn [fmap list_fmap fst].
    rewrite IH.
    destruct (bool_decide (elem_of k (fst <$> d))) eqn:B.
    + apply bool_decide_eq_true in B.
      rewrite bool_decide_eq_true_2 by (apply list_elem_of_further, B). reflexivity.
    + apply bool_decide_eq_false in B.
      rewrite bool_decide_eq_false_2; [reflexivity|].
      intros [?|?]%elem_of_cons; [congruence|tauto].
Qed.

Lemma dict_set_NoDup {V} k (v : V) (d : dict V) :
  NoDup (keys d) -> NoDup (keys (dict_set k v d)).
Proof.
  intros Hd. rewrite dict_set_keys. case_bool_decide as Hk; [exact Hd|].
  apply NoDup_app. split; [exact Hd|]. split; [|apply NoDup_singleton].
  intros x Hx ->%list_elem_of_singleton. exact (Hk Hx).
Qed.

Lemma dict_of_pairs_NoDup {V} (kv_pairs : list (string * V)) :
  NoDup (keys kv_pairs) -> dict_of_pairs kv_pairs = kv_pairs.
Proof.
  unfold dict_of_pairs. change kv_pairs with ([] ++ kv_pairs) at 1 3.
  generalize (@nil (string * V)) as acc.
  induction kv_pairs as [|[k v] rest IH]; intros acc Hnd.
  - rewrite app_nil_r. reflexivity.
  - cbn [fold_left fst snd]. unfold keys in Hnd. rewrite fmap_app in Hnd.
    rewrite dict_set_fresh.
    + rewrite IH; [rewrite <- app_assoc; reflexivity|].
      rewrite <- app_assoc. unfold keys. rewrite fmap_app. exact Hnd.
    + apply NoDup_app in Hnd as (_ & Hdisj & _). intros Hin.
      apply (Hdisj k Hin). apply list_elem_of_here.
Qed.

Lemma for_each_invariant {A S} (Inv : S -> Prop) (body : A -> S -> M.t S) xs s s' tr :
  (forall x s s' tr, body x s = (tr, inr s') -> Inv s -> Inv s') ->
  Inv s -> M.for_each xs body s = (tr, inr s') -> Inv s'.
Proof.
  intros Hbody. revert s tr. induction xs as [|x xs IH]; intros s tr Hs Hrun.
  - inversion Hrun; subst. exact Hs.
  - cbn [M.for_each] in Hrun. destruct (body x s) as [t1 [e|s1]] eqn:Hx;
      [discriminate|].
    rewrite bind_value in Hrun. inversion Hrun; subst.
    destruct (M.for_each xs body s1) as [t2 [e|s2]] eqn:Hxs; [discriminate|].
    cbn in *. inversion H1; subst.
    eapply IH; [|exact Hxs]. eapply Hbody; [exact Hx|exact Hs].
Qed.

(** The identifiers of the expanded dict are pairwise distinct. *)
Lemma expand_data_NoDup fs data d tr :
  expand_data fs data = (tr, inr d) -> NoDup (keys d).
Proof.
  intros Hrun.
  eapply (for_each_invariant (fun d => NoDup (keys d))).
  3: exact Hrun.
  2: apply NoDup_nil_2.
  intros [corpus_id corpus] s s' t. unfold expand_corpus.
  destruct (os.path_isdir fs (path_src corpus)).
  - destruct (length _ =? 0)%nat; [discriminate|].
    intros Hfiles Hs.
    eapply (for_each_invariant (fun d => NoDup (keys d))).
    3: exact Hfiles.
    2: exact Hs.
    clear. intros p s s' t. unfold expand_file.
    destruct (label_data corpus) as [[l|]|]; try discriminate;
      rewrite bind_ret_l; intros H; inversion H; subst; apply dict_set_NoDup.
  - intros H; inversion H; subst. apply dict_set_NoDup.
Qed.

Lemma launch_returns opt : (launch opt).2 = inr tt.
Proof.
  destruct (Z_lt_le_dec 1 (world_size opt)) as [H|H].
  - rewrite launch_multi by exact H. reflexivity.
  - rewrite launch_inline by exact H. reflexivity.
Qed.

(** A run whose corpora expand into [d] ends with [opt.data] equal to a
    reordering of [d]. *)
Lemma train_shards G fs opt d :
  starts_training opt = true ->
  config_copy_returns opt = true ->
  expand_data fs (data opt) = ([], inr d) ->
  exists d', (train G fs opt).2 = inr (set_data opt d') /\ Permutation d' d.
Proof.
  intros Hi Hc Hd. exists (shuffle G (seed opt) d).
  split; [|apply shuffle_Permutation].
  assert (Hs : (shard_assignment G fs opt).2 = inr (shuffle G (seed opt) d)).
  { unfold shard_assignment. rewrite Hd, bind_value. cbn.
    rewrite dict_of_pairs_NoDup; [reflexivity|].
    unfold keys. rewrite shuffle_Permutation.
    eapply expand_data_NoDup, Hd. }
  rewrite (train_launches G fs opt _ Hi Hc Hs). cbn [snd].
  rewrite launch_returns. reflexivity.
Qed.

(** ** Identifiers and label sources of expanded entries *)

(** C3, on a directory given without a trailing separator: [corpus] holds
    [a.json] and [b.json], and the two entries are named [id--a.json] and
    [id--b.json], because [src_file] keeps the separator that follows the
    directory.  The same directory given as [corpus/] yields [id-a.json]
    and [id-b.json]. *)
Theorem identifiers_of_directory_without_separator G :
  (exists d, expand_data (Ex.fs_ab "corpus") (data (Ex.opt_dir "corpus" None))
             = ([], inr d)
             /\ keys d = ["id--a.json"; "id--b.json"])
  /\ (exists d', (train G (Ex.fs_ab "corpus") (Ex.opt_dir "corpus" None)).2
                 = inr (set_data (Ex.opt_dir "corpus" None) d')
                 /\ Permutation (keys d') ["id--a.json"; "id--b.json"])
  /\ (exists d, expand_data (Ex.fs_ab "corpus/") (data (Ex.opt_dir "corpus/" None))
                = ([], inr d)
                /\ keys d = ["id-a.json"; "id-b.json"]).
Proof.
  split; [eexists; split; reflexivity|]. split; [|eexists; split; reflexivity].
  destruct (train_shards G (Ex.fs_ab "corpus") (Ex.opt_dir "corpus" None) _
              eq_refl eq_refl eq_refl) as (d' & Hrun & Hperm).
  exists d'. split; [exact Hrun|]. unfold keys. rewrite Hperm. reflexivity.
Qed.

(** C4, on the same directory with one label folder: the label source of
    [corpus/a.json] is [/a.json], not [labels/a.json], because the join
    with a path that starts with the separator drops the label folder.
    Given as [corpus/], the directory yields [labels/a.json] and
    [labels/b.json]; without label folders the entries hold [None]. *)
Theorem label_sources_of_directory_without_separator G :
  (exists d, expand_data (Ex.fs_ab "corpus")
               (data (Ex.opt_dir "corpus" (Some (Some ["labels"]))))
             = ([], inr d)
             /\ (fun kv => (path_src kv.2, label_data kv.2)) <$> d
                = [("corpus/a.json", Some (Some ["/a.json"]));
                   ("corpus/b.json", Some (Some ["/b.json"]))])
  /\ (exists d', (train G (Ex.fs_ab "corpus")
                    (Ex.opt_dir "corpus" (Some (Some ["labels"])))).2
                 = inr (set_data (Ex.opt_dir "corpus" (Some (Some ["labels"]))) d')
                 /\ Permutation ((fun kv => (path_src kv.2, label_data kv.2)) <$> d')
                      [("corpus/a.json", Some (Some ["/a.json"]));
                       ("corpus/b.json", Some (Some ["/b.json"]))])
  /\ (exists d, expand_data (Ex.fs_ab "corpus/")
                  (data (Ex.opt_dir "corpus/" (Some (Some ["labels"]))))
                = ([], inr d)
                /\ (fun kv => (path_src kv.2, label_data kv.2)) <$> d
                   = [("corpus/a.json", Some (Some ["labels/a.json"]));
                      ("corpus/b.json", Some (Some ["labels/b.json"]))])
  /\ (exists d, expand_data (Ex.fs_ab "corpus/") (data (Ex.opt_dir "corpus/" None))
                = ([], inr d)
                /\ (fun kv => (path_src kv.2, label_data kv.2)) <$> d
                   = [("corpus/a.json", Some None); ("corpus/b.json", Some None)]).
Proof.
  split; [eexists; split; reflexivity|].
  split; [|split; eexists; split; reflexivity].
  destruct (train_shards G (Ex.fs_ab "corpus")
              (Ex.opt_dir "corpus" (Some (Some ["labels"]))) _
              eq_refl eq_refl eq_refl)
    as (d' & Hrun & Hperm).
  exists d'. split; [exact Hrun|]. rewrite Hperm. reflexivity.
Qed.

(** C10: below [corpus/], the file [a-b.json] and the file [b.json] of the
    directory [a] get the same identifier [id-a-b.json].  Both are found,
    [corpus/a-b.json] sorts first, and the one entry left in [opt.data]
    is that of [corpus/a/b.json]: two data files, one shard. *)
Theorem colliding_identifiers G :
  os.listing Ex.fs_clash "corpus/"
  = Some [os.Dir "a" [os.File "b.json"]; os.File "a-b.json"]
  /\ src_file_paths Ex.fs_clash "corpus/" = ["corpus/a-b.json"; "corpus/a/b.json"]
  /\ train G Ex.fs_clash (Ex.opt_dir "corpus/" None)
     = (prelude Ex.fs_clash (Ex.opt_dir "corpus/" None) ++ [single_main (-1)],
        inr (set_data (Ex.opt_dir "corpus/" None)
               [("id-a-b.json",
                 {| path_src := "corpus/a/b.json";
                    path_tgt := Some "corpus/a/b.json";
                    label_data := Some None; others := [] |})]))
  /\ (length (src_file_paths Ex.fs_clash "corpus/") = 2)%nat.
Proof. repeat split. Qed.


(** ** Directories given with their trailing separator *)

Lemma append_cons x (a b : string) : String x a +:+ b = String x (a +:+ b).
Proof. reflexivity. Qed.

Lemma append_assoc (a b c : string) : (a +:+ b) +:+ c = a +:+ b +:+ c.
Proof.
  induction a as [|x a IH]; [reflexivity|].
  rewrite !append_cons, IH. reflexivity.
Qed.

Lemma drop_append (a r : string) : Str.drop (String.length a) (a +:+ r) = r.
Proof. induction a as [|x a IH]; [destruct r; reflexivity|exact IH]. Qed.

Lemma endswith_sep_cons c s :
  Str.endswith (String c s) "/"
  = match s with
    | EmptyString => Ascii.eqb c "/"
    | String _ _ => Str.endswith s "/"
    end.
Proof.
  destruct s as [|c' s]; unfold Str.endswith.
  - cbn. destruct (Ascii.eqb c "/"); reflexivity.
  - cbn [String.length Nat.leb Nat.sub andb String.substring].
    rewrite Nat.sub_0_r. reflexivity.
Qed.

Lemma endswith_sep_append a n :
  n <> EmptyString -> Str.endswith (a +:+ n) "/" = Str.endswith n "/".
Proof.
  intros Hn. induction a as [|x a IH]; [reflexivity|].
  rewrite append_cons, endswith_sep_cons, IH.
  destruct (a +:+ n) eqn:E; [|reflexivity].
  destruct a, n; try rewrite append_cons in E; cbv in E; congruence.
Qed.

Lemma endswith_sep_no_sep n :
  Str.contains os.sep n = false -> Str.endswith n "/" = false.
Proof.
  induction n as [|c n IH]; [reflexivity|]. cbn [Str.contains].
  intros [Hc Hn]%orb_false_iff. rewrite endswith_sep_cons.
  destruct n; [exact Hc | exact (IH Hn)].
Qed.

Section valid_names.
Variable n : string.
Hypothesis Hvalid : os.valid_name n = true.

Lemma valid_name_inv : n <> EmptyString /\ Str.contains os.sep n = false.
Proof.
  unfold os.valid_name in Hvalid. apply andb_true_iff in Hvalid as [H1 H2].
  apply negb_true_iff in H1, H2. split; [|exact H2].
  apply String.eqb_neq. exact H1.
Qed.

Lemma path_join_valid root : os.path_join root n = os.with_sep root +:+ n.
Proof.
  destruct valid_name_inv as [Hne Hsep]. unfold os.path_join, os.with_sep.
  replace (Str.startswith_char n os.sep) with false.
  - destruct (String.eqb root "" || Str.endswith root "/"); [reflexivity|].
    rewrite append_assoc. reflexivity.
  - destruct n as [|c n']; [reflexivity|]. cbn in *.
    apply orb_false_iff in Hsep as [Hc _]. symmetry. exact Hc.
Qed.

Lemma with_sep_valid root :
  os.with_sep (os.with_sep root +:+ n) = os.with_sep root +:+ n +:+ "/".
Proof.
  destruct valid_name_inv as [Hne Hsep]. unfold os.with_sep at 1.
  rewrite endswith_sep_append, endswith_sep_no_sep by assumption.
  replace (String.eqb (os.with_sep root +:+ n) "") with false.
  - cbn [orb]. apply append_assoc.
  - symmetry. apply String.eqb_neq.
    destruct (os.with_sep root), n; try rewrite append_cons; cbv; congruence.
Qed.

End valid_names.

Lemma contribution_relative root e :
  os.valid_node e = true ->
  Permutation (contribution root e)
    ((fun r => os.with_sep root +:+ r) <$> os.relative_paths_node e).
Proof.
  revert root. induction e as [n|n es IH] using os.fsnode_nested_ind;
    intros root Hvalid; cbn [os.valid_node] in Hvalid.
  - unfold contribution.
    cbn [os.filenames omap list_omap os.walk_node os.relative_paths_node
           found_paths flat_map].
    rewrite app_nil_r, filter_cons, filter_nil.
    destruct (Str.endswith n ".json"); [|reflexivity].
    rewrite decide_True by exact I. cbn [fmap list_fmap].
    rewrite (path_join_valid n Hvalid). reflexivity.
  - apply andb_true_iff in Hvalid as [Hn Hes].
    unfold contribution. cbn [os.filenames omap list_omap os.walk_node].
    rewrite filter_nil. cbn [fmap list_fmap app os.relative_paths_node].
    rewrite found_by_entry, (path_join_valid n Hn).
    rewrite <- list_fmap_compose.
    set (root' := os.with_sep root +:+ n).
    transitivity ((fun r => os.with_sep root' +:+ r)
                    <$> flat_map os.relative_paths_node es).
    + clear Hn. induction IH as [|e es He _ IHes]; [reflexivity|].
      cbn [forallb] in Hes. apply andb_true_iff in Hes as [Hv Hes].
      cbn [flat_map]. rewrite fmap_app. rewrite (He root' Hv), (IHes Hes).
      reflexivity.
    + unfold root'. rewrite (with_sep_valid n Hn).
      apply eq_subrelation; [apply _|]. apply list_fmap_ext. intros _ r _. cbn.
      rewrite !append_assoc. reflexivity.
Qed.

(** The data files found below a directory given with its separator are
    the directory followed by the relative paths, sorted. *)
Lemma src_file_paths_relative fs top es :
  os.listing fs top = Some es ->
  Str.endswith top "/" = true ->
  forallb os.valid_node es = true ->
  Permutation (src_file_paths fs top)
    ((fun r => top +:+ r) <$> os.relative_paths es).
Proof.
  intros Hes Htop Hvalid. unfold src_file_paths, os.walk. rewrite Hes.
  rewrite merge_sort_Permutation, found_by_entry.
  assert (Hsep : os.with_sep top = top).
  { unfold os.with_sep. rewrite Htop, orb_true_r. reflexivity. }
  unfold os.relative_paths. clear Hes.
  induction es as [|e es IH]; [reflexivity|].
  cbn [forallb] in Hvalid. apply andb_true_iff in Hvalid as [Hv Hvalid].
  cbn [flat_map]. rewrite fmap_app, (contribution_relative top e Hv), Hsep.
  rewrite (IH Hvalid). reflexivity.
Qed.

Lemma expand_file_entry corpus_id corpus r d :
  label_data corpus <> Some None ->
  expand_file corpus_id corpus (path_src corpus +:+ r) d
  = ([], inr (dict_set (entry_for corpus_id corpus r).1
                (entry_for corpus_id corpus r).2 d)).
Proof.
  intros Hl. unfold expand_file, entry_for. rewrite drop_append.
  destruct (label_data corpus) as [[l|]|]; [|congruence|]; reflexivity.
Qed.

Lemma expand_files_entries corpus_id corpus rs d :
  label_data corpus <> Some None ->
  M.for_each ((fun r => path_src corpus +:+ r) <$> rs)
    (expand_file corpus_id corpus) d
  = ([], inr (fold_left (fun d r => dict_set (entry_for corpus_id corpus r).1
                                      (entry_for corpus_id corpus r).2 d) rs d)).
Proof.
  intros Hl. revert d. induction rs as [|r rs IH]; intros d; [reflexivity|].
  cbn [fmap list_fmap M.for_each fold_left].
  rewrite (expand_file_entry _ _ _ _ Hl), bind_value, IH. reflexivity.
Qed.

Lemma dict_set_elem {V} k (v : V) (d : dict V) kv :
  In kv (dict_set k v d) -> In kv d \/ kv = (k, v).
Proof.
  induction d as [|[k' v'] d IH]; cbn [dict_set].
  - intros [<-|[]]. right. reflexivity.
  - destruct (String.eqb k' k) eqn:E.
    + apply String.eqb_eq in E. subst. intros [<-|H]; [right; reflexivity|].
      left. right. exact H.
    + intros [<-|H]; [left; left; reflexivity|].
      destruct (IH H) as [H'|H']; [left; right; exact H'|right; exact H'].
Qed.

Lemma fold_dict_set {A V} (f : A -> string * V) (xs : list A) (d : dict V) :
  let d' := fold_left (fun d x => dict_set (f x).1 (f x).2 d) xs d in
  (forall k, elem_of k (keys d) -> elem_of k (keys d'))
  /\ (forall x, In x xs -> elem_of (f x).1 (keys d'))
  /\ (forall kv, In kv d' -> In kv d \/ exists x, In x xs /\ kv = f x).
Proof.
  revert d. induction xs as [|x xs IH]; intros d; cbn [fold_left].
  - split; [tauto|]. split; [intros ? []|tauto].
  - destruct (IH (dict_set (f x).1 (f x).2 d)) as (Hkeep & Hnew & Hfrom).
    assert (Hset : forall k, elem_of k (keys d) \/ k = (f x).1 ->
                             elem_of k (keys (dict_set (f x).1 (f x).2 d))).
    { intros k Hk. rewrite dict_set_keys. case_bool_decide as Hin.
      - destruct Hk as [Hk| ->]; assumption.
      - apply elem_of_app. destruct Hk as [Hk| ->]; [left; exact Hk|].
        right. apply list_elem_of_here. }
    split; [|split].
    + intros k Hk. apply Hkeep, Hset. left. exact Hk.
    + intros y [<-|Hy]; [|apply Hnew, Hy]. apply Hkeep, Hset. right. reflexivity.
    + intros kv Hkv. destruct (Hfrom kv Hkv) as [Hd|(y & Hy & ->)].
      * destruct (dict_set_elem _ _ _ _ Hd) as [H| ->]; [left; exact H|].
        right. exists x. split; [left; reflexivity|]. destruct (f x); reflexivity.
      * right. exists y. split; [right; exact Hy|reflexivity].
Qed.

(** X10: for a directory given with its trailing separator, the expansion
    of C3 and C4 holds in general: every data file at the relative path [r]
    gives the identifier [id + '-' + r] with separators replaced, and every
    entry added is the [entry_for] of a data file, with the label folders
    joined with its relative path, or [None] when there are none. *)
Lemma expand_directory_with_separator fs corpus_id corpus es acc :
  os.listing fs (path_src corpus) = Some es ->
  Str.endswith (path_src corpus) "/" = true ->
  forallb os.valid_node es = true ->
  label_data corpus <> Some None ->
  os.relative_paths es <> [] ->
  exists d',
    expand_corpus fs (corpus_id, corpus) acc = ([], inr d')
    /\ (forall r, In r (os.relative_paths es) ->
                  elem_of (entry_for corpus_id corpus r).1 (keys d'))
    /\ (forall kv, In kv d' ->
                   In kv acc
                   \/ exists r, In r (os.relative_paths es)
                                /\ kv = entry_for corpus_id corpus r).
Proof.
  intros Hes Htop Hvalid Hl Hne.
  pose proof (src_file_paths_relative fs _ es Hes Htop Hvalid) as Hperm.
  apply Permutation_map_inv in Hperm as (rs & Hps & Hrs).
  unfold expand_corpus, os.path_isdir. rewrite Hes.
  rewrite bool_decide_eq_true_2 by eauto.
  change (map ?f ?l) with (f <$> l) in Hps. rewrite Hps, length_fmap.
  destruct rs as [|r0 rs'] eqn:Ers.
  { apply Permutation_nil_r in Hrs. contradiction. }
  rewrite <- Ers in *. replace (length rs =? 0)%nat with false by (subst; reflexivity).
  rewrite (expand_files_entries corpus_id corpus rs acc Hl).
  eexists. split; [reflexivity|].
  destruct (fold_dict_set (entry_for corpus_id corpus) rs acc) as (_ & Hnew & Hfrom).
  split.
  - intros r Hr. apply Hnew. apply (Permutation_in _ Hrs), Hr.
  - intros kv Hkv. destruct (Hfrom kv Hkv) as [H|(r & Hr & ->)]; [left; exact H|].
    right. exists r. split; [|reflexivity].
    apply (Permutation_in _ (Permutation_sym Hrs)), Hr.
Qed.

Example expand_directory_with_separator_ab :
  exists d',
    expand_corpus (Ex.fs_ab "corpus/")
      ("id", {| path_src := "corpus/"; path_tgt := None;
                label_data := Some (Some ["labels"]); others := [] |}) []
    = ([], inr d')
    /\ elem_of "id-a.json" (keys d') /\ elem_of "id-b.json" (keys d').
Proof.
  destruct (expand_directory_with_separator (Ex.fs_ab "corpus/") "id"
              {| path_src := "corpus/"; path_tgt := None;
                 label_data := Some (Some ["labels"]); others := [] |}
              [os.File "b.json"; os.File "a.json"] [])
    as (d' & Hrun & Hkeys & _); try reflexivity; try discriminate.
  exists d'. split; [exact Hrun|]. split.
  - apply (Hkeys "a.json"). right. left. reflexivity.
  - apply (Hkeys "b.json"). left. reflexivity.
Defined.

(** * Further properties of the code *)

(** ** How a run of [train] ends *)

Lemma starts_training_false opt :
  starts_training opt = false <-> train_from opt = "" /\ n_sample opt <> 0.
Proof.
  unfold starts_training. rewrite orb_false_iff, negb_false_iff.
  rewrite String.eqb_eq, Z.eqb_neq. reflexivity.
Qed.

Lemma config_copy_returns_false opt :
  config_copy_returns opt = false
  <-> exists c d, config opt = Some c /\ exp_dir opt = Some d
                  /\ (c = None \/ d = None).
Proof.
  unfold config_copy_returns. split.
  - destruct (config opt) as [[c|]|], (exp_dir opt) as [[d|]|];
      try discriminate; intros _; eexists _, _; eauto.
  - intros (c & d & -> & -> & [-> | ->]); [reflexivity|].
    destruct c; reflexivity.
Qed.

(** The four ways a run ends: at the exit of the sampling, at the copy of
    the config file, at a corpus that cannot be expanded, or after the
    launch. *)
Lemma train_cases G fs opt :
  (starts_training opt = false
   /\ train G fs opt
      = ([init_logger; validate_train_opts; update_model_opts;
          validate_model_opts; set_random_seed (seed opt)]
         ++ (_init_train opt).1, inl SystemExit))
  \/ (starts_training opt = true /\ config_copy_returns opt = false
      /\ train G fs opt = (prelude fs opt, inl TypeError))
  \/ (starts_training opt = true /\ config_copy_returns opt = true
      /\ exists e, (expand_data fs (data opt)).2 = inl e
                   /\ train G fs opt = (prelude fs opt, inl e))
  \/ (starts_training opt = true /\ config_copy_returns opt = true
      /\ exists d, expand_data fs (data opt) = ([], inr d)
                   /\ train G fs opt
                      = (prelude fs opt ++ (launch (set_data opt (shuffle G (seed opt) d))).1,
                         inr (set_data opt (shuffle G (seed opt) d)))).
Proof.
  destruct (starts_training opt) eqn:Hi.
  - right. destruct (config_copy_returns opt) eqn:Hc.
    + right. pose proof (expand_data_silent fs (data opt)) as Hs.
      destruct (expand_data fs (data opt)) as [tr [e|d]] eqn:Hd; cbn in Hs; subst tr.
      * left. split; [reflexivity|]. split; [reflexivity|].
        exists e. split; [reflexivity|].
        apply train_shards_fail; [exact Hi|exact Hc|].
        unfold shard_assignment. rewrite Hd. reflexivity.
      * right. split; [reflexivity|]. split; [reflexivity|].
        exists d. split; [reflexivity|].
        assert (Hs : (shard_assignment G fs opt).2 = inr (shuffle G (seed opt) d)).
        { unfold shard_assignment. rewrite Hd, bind_value. cbn.
          rewrite dict_of_pairs_NoDup; [reflexivity|].
          unfold keys. rewrite shuffle_Permutation.
          eapply expand_data_NoDup, Hd. }
        rewrite (train_launches G fs opt _ Hi Hc Hs), launch_returns. reflexivity.
    + left. split; [reflexivity|]. split; [reflexivity|].
      apply train_config_fails; assumption.
  - left. split; [reflexivity|].
    apply train_init_fails, init_train_exits, Hi.
Qed.

Lemma init_train_quiet opt :
  Forall (fun e => is_launch_event e = false)
    ([init_logger; validate_train_opts; update_model_opts; validate_model_opts;
      set_random_seed (seed opt)] ++ (_init_train opt).1).
Proof.
  pose proof (prelude_no_launch_event Ex.no_fs opt) as Hp. unfold prelude in Hp.
  rewrite !Forall_app in Hp. rewrite Forall_app. tauto.
Qed.

Lemma for_each_raises {A S} (body : A -> S -> M.t S) xs s tr e :
  M.for_each xs body s = (tr, inl e) ->
  exists x s', In x xs /\ (body x s').2 = inl e.
Proof.
  revert s tr. induction xs as [|x xs IH]; intros s tr Hrun; [discriminate|].
  cbn [M.for_each] in Hrun. destruct (body x s) as [t1 [e1|s1]] eqn:Hx.
  - inversion Hrun; subst. exists x, s. split; [left; reflexivity|].
    rewrite Hx. reflexivity.
  - rewrite bind_value in Hrun.
    destruct (M.for_each xs body s1) as [t2 [e2|s2]] eqn:Hxs; [|discriminate].
    cbn in Hrun. inversion Hrun; subst.
    destruct (IH _ _ Hxs) as (y & s' & Hy & Hbody).
    exists y, s'. split; [right; exact Hy|exact Hbody].
Qed.

(** What makes the expansion of one corpus raise. *)
Lemma expand_corpus_raises fs corpus_id corpus acc e :
  (expand_corpus fs (corpus_id, corpus) acc).2 = inl e ->
  os.path_isdir fs (path_src corpus) = true
  /\ ((src_file_paths fs (path_src corpus) = []
       /\ e = Exception (no_json_files corpus_id (path_src corpus)))
      \/ (src_file_paths fs (path_src corpus) <> []
          /\ label_data corpus = Some None /\ e = TypeError)).
Proof.
  unfold expand_corpus.
  destruct (os.path_isdir fs (path_src corpus)); [|discriminate].
  intros Hrun. split; [reflexivity|].
  destruct (src_file_paths fs (path_src corpus)) as [|p ps] eqn:Hps.
  - left. cbn in Hrun. inversion Hrun. split; reflexivity.
  - right. split; [discriminate|]. cbn [length Nat.eqb] in Hrun.
    destruct (M.for_each (p :: ps) (expand_file corpus_id corpus) acc)
      as [tr [e'|d]] eqn:Hfiles; [|discriminate].
    cbn in Hrun. inversion Hrun; subst e'.
    destruct (for_each_raises _ _ _ _ _ Hfiles) as (x & s' & _ & Hx).
    unfold expand_file in Hx.
    destruct (label_data corpus) as [[l|]|]; try discriminate.
    cbn in Hx. inversion Hx. split; reflexivity.
Qed.

Lemma expand_data_raises fs data e :
  (expand_data fs data).2 = inl e ->
  exists corpus_id corpus,
    In (corpus_id, corpus) data
    /\ os.path_isdir fs (path_src corpus) = true
    /\ ((src_file_paths fs (path_src corpus) = []
         /\ e = Exception (no_json_files corpus_id (path_src corpus)))
        \/ (src_file_paths fs (path_src corpus) <> []
            /\ label_data corpus = Some None /\ e = TypeError)).
Proof.
  intros Hrun. unfold expand_data in Hrun.
  destruct (M.for_each data (expand_corpus fs) []) as [tr [e'|d]] eqn:Hd;
    [|discriminate].
  cbn in Hrun. inversion Hrun; subst e'.
  destruct (for_each_raises _ _ _ _ _ Hd) as ([cid c] & s' & Hin & Hitem).
  exists cid, c. split; [exact Hin|].
  apply (expand_corpus_raises fs cid c s'), Hitem.
Qed.

(** X1: [train] ends in [SystemExit] exactly when samples are asked for
    ([-n_sample] is not 0) and no checkpoint is given ([-train_from] is
    empty).  Such a run saves the samples as its last call and goes no
    further: it copies no config file, reads no corpus directory and makes
    no call of the launch, whatever the file system holds. *)
Theorem train_exits_iff_sampling G fs opt :
  ((train G fs opt).2 = inl SystemExit
   <-> train_from opt = "" /\ n_sample opt <> 0)
  /\ ((train G fs opt).2 = inl SystemExit ->
      last (train G fs opt).1 = Some (save_transformed_sample (n_sample opt))
      /\ Forall (fun e => is_launch_event e = false
                          /\ (forall src dst, e <> copy2 src dst))
           (train G fs opt).1
      /\ forall G' fs', train G' fs' opt = train G fs opt).
Proof.
  assert (Hiff : (train G fs opt).2 = inl SystemExit <-> starts_training opt = false).
  { destruct (train_cases G fs opt)
      as [[Hi Hrun]|[(Hi & _ & Hrun)|[(Hi & _ & e & He & Hrun)|(Hi & _ & d & _ & Hrun)]]];
      rewrite Hrun; cbn [snd].
    - tauto.
    - split; [discriminate|congruence].
    - split; [|congruence]. intros Heq. inversion Heq; subst.
      destruct (expand_data_raises _ _ _ He) as (? & ? & _ & _ & [[_ ?]|(_ & _ & ?)]);
        discriminate.
    - split; [discriminate|congruence]. }
  split; [rewrite Hiff; apply starts_training_false|].
  intros Hexit. apply Hiff in Hexit.
  assert (Hany : forall G' fs', train G' fs' opt
                 = ([init_logger; validate_train_opts; update_model_opts;
                     validate_model_opts; set_random_seed (seed opt)]
                    ++ (_init_train opt).1, inl SystemExit)).
  { intros. apply train_init_fails, init_train_exits, Hexit. }
  rewrite (Hany G fs). cbn [fst]. split; [|split; [|intros; apply Hany]].
  - apply starts_training_false in Hexit as [Hfrom Hn].
    unfold _init_train, prepare_fields_transforms. rewrite Hfrom.
    apply Z.eqb_neq in Hn. rewrite Hn.
    destruct (dump_fields opt), (dump_transforms opt); reflexivity.
  - apply starts_training_false in Hexit as [Hfrom Hn].
    unfold _init_train, prepare_fields_transforms. rewrite Hfrom.
    apply Z.eqb_neq in Hn. rewrite Hn.
    destruct (dump_fields opt), (dump_transforms opt); cbn;
      repeat (constructor; [split; [reflexivity|discriminate]|]); constructor.
Qed.

(** X2: the exceptions that the code of [train] raises, the calls that
    leave the file being taken to return.  A failed run ends in one of
    three ways.  In [SystemExit], when samples are asked for and no
    checkpoint is given.  In a [TypeError] at the copy of the config file,
    after the initialisation and before any corpus is read, when [opt] has
    both [config] and [exp_dir] and one of them is [None].  Or, after the
    config copy, on one corpus of [opt.data] that is a directory: with the
    [Exception] "no JSON files found" naming that corpus when the directory
    holds no data file, or with a [TypeError] when it holds some and the
    corpus has [label_data] set to [None].  No run ends in an [IndexError],
    and a failed run has made no call of the launch. *)
Theorem train_failure_modes G fs opt e :
  (train G fs opt).2 = inl e ->
  (e = IndexError -> False)
  /\ Forall (fun ev => is_launch_event ev = false) (train G fs opt).1
  /\ ((e = SystemExit /\ train_from opt = "" /\ n_sample opt <> 0)
      \/ (e = TypeError
          /\ (_init_train opt).2 = inr tt
          /\ (copy_config fs opt).2 = inl TypeError
          /\ exists c d, config opt = Some c /\ exp_dir opt = Some d
                         /\ (c = None \/ d = None))
      \/ ((_init_train opt).2 = inr tt
          /\ (copy_config fs opt).2 = inr tt
          /\ exists corpus_id corpus,
               In (corpus_id, corpus) (data opt)
               /\ os.path_isdir fs (path_src corpus) = true
               /\ ((src_file_paths fs (path_src corpus) = []
                    /\ e = Exception (no_json_files corpus_id (path_src corpus)))
                   \/ (src_file_paths fs (path_src corpus) <> []
                       /\ label_data corpus = Some None /\ e = TypeError)))).
Proof.
  destruct (train_cases G fs opt)
    as [[Hi Hrun]|[(Hi & Hc & Hrun)|[(Hi & Hc & e' & He & Hrun)|(Hi & _ & d & _ & Hrun)]]];
    rewrite Hrun; cbn [fst snd]; intros Heq; inversion Heq; subst.
  - split; [discriminate|]. split; [apply init_train_quiet|].
    left. split; [reflexivity|]. apply starts_training_false, Hi.
  - split; [discriminate|]. split; [apply prelude_no_launch_event|].
    right. left. split; [reflexivity|]. split; [apply init_train_returns, Hi|].
    split; [apply copy_config_raises, Hc|]. apply config_copy_returns_false, Hc.
  - destruct (expand_data_raises _ _ _ He) as (cid & c & Hin & Hdir & Hwhy).
    split; [|split; [apply prelude_no_launch_event|]].
    + destruct Hwhy as [[_ ->]|(_ & _ & ->)]; discriminate.
    + right. right. split; [apply init_train_returns, Hi|].
      split; [apply copy_config_returns, Hc|].
      exists cid, c. repeat split; assumption.
Qed.

Lemma train_failure_modes_witness :
  (exists c d, config Inputs.opt_config_none = Some c
               /\ exp_dir Inputs.opt_config_none = Some d
               /\ (c = None \/ d = None))
  /\ train Ex.G0 Inputs.fs_no_exp Inputs.opt_config_none
     = ([init_logger; validate_train_opts; update_model_opts; validate_model_opts;
         set_random_seed 3435; validate_prepare_opts; build_dynamic_fields;
         prepare_pretrained_embeddings; os_mkdir "exp"],
        inl TypeError).
Proof.
  destruct (train_failure_modes Ex.G0 Inputs.fs_no_exp Inputs.opt_config_none
              TypeError eq_refl)
    as (_ & _ & [(H & _)|[(_ & _ & _ & Hwhy)|(_ & H & _)]]);
    try discriminate H.
  split; [exact Hwhy | reflexivity].
Defined.

(** ** When [train] returns *)

Lemma expand_file_label_typed corpus_id corpus p acc tr d :
  expand_file corpus_id corpus p acc = (tr, inr d) -> label_data corpus <> Some None.
Proof.
  unfold expand_file. destruct (label_data corpus) as [[l|]|]; cbn; congruence.
Qed.

Lemma expand_corpus_returned fs item acc tr d :
  expand_corpus fs item acc = (tr, inr d) -> expandable fs item = true.
Proof.
  destruct item as [cid c]. unfold expand_corpus, expandable. cbn [snd].
  destruct (os.path_isdir fs (path_src c)); [|reflexivity].
  destruct (src_file_paths fs (path_src c)) as [|p ps]; [discriminate|].
  cbn [length Nat.eqb negb andb M.for_each]. intros Hrun.
  destruct (expand_file cid c p acc) as [t1 [e|d1]] eqn:Hp; [discriminate|].
  apply expand_file_label_typed in Hp.
  rewrite bool_decide_eq_false_2 by exact Hp. reflexivity.
Qed.

Lemma expand_data_returned fs data acc tr d :
  M.for_each data (expand_corpus fs) acc = (tr, inr d) ->
  forallb (expandable fs) data = true.
Proof.
  revert acc tr d. induction data as [|item data IH]; intros acc tr d Hrun;
    [reflexivity|].
  cbn [M.for_each forallb] in *.
  destruct (expand_corpus fs item acc) as [t1 [e|d1]] eqn:Hitem; [discriminate|].
  rewrite (expand_corpus_returned _ _ _ _ _ Hitem). cbn [andb].
  rewrite bind_value in Hrun.
  destruct (M.for_each data (expand_corpus fs) d1) as [t2 [e|d2]] eqn:Hrest;
    [discriminate|].
  eapply IH, Hrest.
Qed.

(** X3: what a run of [train] that returns normally has passed.  The
    initialisation returned: a checkpoint is given or no sample is asked
    for.  The copy of the config file met no [None]: [opt] lacks [config]
    or [exp_dir], or both hold a string.  And every corpus of [opt.data]
    that is a directory holds at least one data file and does not have
    [label_data] set to [None]. *)
Theorem train_returns_only_if G fs opt opt' :
  (train G fs opt).2 = inr opt' ->
  (train_from opt <> "" \/ n_sample opt = 0)
  /\ (config opt = None \/ exp_dir opt = None
      \/ exists c d, config opt = Some (Some c) /\ exp_dir opt = Some (Some d))
  /\ Forall (fun item =>
               os.path_isdir fs (path_src item.2) = true ->
               src_file_paths fs (path_src item.2) <> []
               /\ label_data item.2 <> Some None)
       (data opt).
Proof.
  intros Hret.
  destruct (train_cases G fs opt)
    as [[Hi Hrun]|[(Hi & _ & Hrun)|[(Hi & _ & e & He & Hrun)|(Hi & Hc & d & Hd & Hrun)]]];
    rewrite Hrun in Hret; try discriminate.
  split; [|split].
  - unfold starts_training in Hi. rewrite orb_true_iff, negb_true_iff in Hi.
    rewrite String.eqb_neq, Z.eqb_eq in Hi. exact Hi.
  - unfold config_copy_returns in Hc.
    destruct (config opt) as [[c|]|], (exp_dir opt) as [[d0|]|];
      try discriminate; auto.
    right. right. eexists _, _. split; reflexivity.
  - apply (expand_data_returned fs (data opt) [] [] d) in Hd.
    rewrite forallb_forall in Hd. apply Forall_forall. intros item Hin.
    pose proof (Hd item (proj1 (list_elem_of_In _ _) Hin)) as Hitem.
    unfold expandable in Hitem. intros Hdir. rewrite Hdir in Hitem.
    apply andb_true_iff in Hitem as [Hn Hl]. split.
    + intros Hnil. rewrite Hnil in Hn. discriminate.
    + apply negb_true_iff, bool_decide_eq_false in Hl. exact Hl.
Qed.

Lemma train_returns_only_if_witness :
  (train_from (Ex.opt_dir "corpus/" (Some (Some ["labels"]))) <> ""
   \/ n_sample (Ex.opt_dir "corpus/" (Some (Some ["labels"]))) = 0)
  /\ (config (Ex.opt_dir "corpus/" (Some (Some ["labels"]))) = None
      \/ exp_dir (Ex.opt_dir "corpus/" (Some (Some ["labels"]))) = None
      \/ exists c d,
           config (Ex.opt_dir "corpus/" (Some (Some ["labels"]))) = Some (Some c)
           /\ exp_dir (Ex.opt_dir "corpus/" (Some (Some ["labels"]))) = Some (Some d))
  /\ Forall (fun item =>
               os.path_isdir (Ex.fs_ab "corpus/") (path_src item.2) = true ->
               src_file_paths (Ex.fs_ab "corpus/") (path_src item.2) <> []
               /\ label_data item.2 <> Some None)
       (data (Ex.opt_dir "corpus/" (Some (Some ["labels"])))).
Proof.
  exact (train_returns_only_if Ex.G0 (Ex.fs_ab "corpus/")
           (Ex.opt_dir "corpus/" (Some (Some ["labels"]))) _ eq_refl).
Defined.

(** ** prepare_fields_transforms *)

(** X4: in [prepare_fields_transforms] the transforms are always made
    before they are used: every call of [save_transforms] or
    [save_transformed_sample] comes after a call of [make_transforms], for
    every setting of [-dump_fields], [-dump_transforms] and [-n_sample]. *)
Theorem transforms_made_before_use opt j e :
  (prepare_fields_transforms opt).1 !! j = Some e ->
  uses_transforms e = true ->
  exists i, (i < j)%nat
            /\ (prepare_fields_transforms opt).1 !! i = Some make_transforms.
Proof.
  unfold prepare_fields_transforms.
  destruct (dump_fields opt), (dump_transforms opt), (n_sample opt =? 0);
    cbn; intros Hj He;
    repeat match type of Hj with
      | [] !! _ = Some _ => destruct j; discriminate Hj
      | (_ :: _) !! _ = Some _ =>
          destruct j as [|j]; cbn in Hj;
          [ inversion Hj; subst; try discriminate He;
            first [ exists 2%nat; split; [lia|reflexivity]
                  | exists 3%nat; split; [lia|reflexivity] ]
          | ]
      end.
Qed.

Lemma transforms_made_before_use_witness :
  exists i, (i < 4)%nat
            /\ (prepare_fields_transforms Inputs.opt_sampling).1 !! i
               = Some make_transforms.
Proof.
  apply (transforms_made_before_use Inputs.opt_sampling 4
           (save_transformed_sample 5)); reflexivity.
Defined.

(** ** The copy of the config file *)

Lemma rfind_absent c s : Str.contains c s = false -> Str.rfind c s = -1.
Proof.
  induction s as [|a s IH]; [reflexivity|]. cbn [Str.contains Str.rfind].
  intros [Ha Hs]%orb_false_iff. rewrite (IH Hs), Ha. reflexivity.
Qed.

(** [rfind] gives the place of the last occurrence. *)
Lemma rfind_last c s :
  Str.contains c s = true ->
  exists p t, s = p +:+ String c t
              /\ Str.contains c t = false
              /\ Str.rfind c s = Z.of_nat (String.length p).
Proof.
  induction s as [|a s IH]; [discriminate|]. cbn [Str.contains Str.rfind].
  intros Hs. destruct (Str.contains c s) eqn:Hc.
  - destruct (IH eq_refl) as (p & t & -> & Ht & Hr).
    exists (String a p), t. rewrite Hr. split; [reflexivity|]. split; [exact Ht|].
    destruct (0 <=? Z.of_nat (String.length p)) eqn:E; [|apply Z.leb_gt in E; lia].
    cbn [String.length]. lia.
  - rewrite orb_false_r in Hs. rewrite (rfind_absent _ _ Hc), Hs. cbn.
    apply Ascii.eqb_eq in Hs. subst a.
    exists EmptyString, s. repeat split; assumption || reflexivity.
Qed.

Lemma drop_past p c t :
  Str.drop (S (String.length p)) (p +:+ String c t) = t.
Proof. induction p as [|a p IH]; [destruct t; reflexivity|exact IH]. Qed.

Lemma copy_config_strings fs opt c d :
  config opt = Some (Some c) ->
  exp_dir opt = Some (Some d) ->
  copy_config fs opt
  = ((if os.path_exists fs d then [] else [os_mkdir d])
       ++ [copy2 c (d +:+ "/" +:+
                    (if Str.contains os.sep c
                     then Str.drop (Z.to_nat (Str.rfind os.sep c + 1)) c
                     else c))],
     inr tt).
Proof.
  intros Hc Hd. unfold copy_config. rewrite Hc, Hd. cbn [M.str].
  rewrite bind_ret_l. destruct (os.path_exists fs d); reflexivity.
Qed.

(** X5: the copy of the config file (lines 110-114), in each case.  When
    [opt] lacks [config] or [exp_dir], nothing is done.  When both hold a
    string, the config file is copied into [exp_dir] under its base name:
    the destination is [exp_dir + '/' + filename] where [config] is
    [dir + filename], [dir] is empty or ends with the separator and
    [filename] holds no separator; the folder is made first when it does
    not exist, and only then.  When [opt] has both and [exp_dir] is [None],
    a [TypeError] is raised before any call.  When [exp_dir] is a string and
    [config] is [None], the folder is made when it does not exist and a
    [TypeError] follows: nothing is copied. *)
Theorem config_copied_under_base_name fs opt :
  (config opt = None \/ exp_dir opt = None -> copy_config fs opt = ([], inr tt))
  /\ (forall c d,
        config opt = Some (Some c) ->
        exp_dir opt = Some (Some d) ->
        exists dir filename,
          c = dir +:+ filename
          /\ Str.contains os.sep filename = false
          /\ (dir = "" \/ Str.endswith dir "/" = true)
          /\ copy_config fs opt
             = ((if os.path_exists fs d then [] else [os_mkdir d])
                  ++ [copy2 c (d +:+ "/" +:+ filename)], inr tt))
  /\ (forall c,
        config opt = Some c ->
        exp_dir opt = Some None ->
        copy_config fs opt = ([], inl TypeError))
  /\ (forall d,
        config opt = Some None ->
        exp_dir opt = Some (Some d) ->
        copy_config fs opt
        = (if os.path_exists fs d then [] else [os_mkdir d], inl TypeError)).
Proof.
  split; [|split; [|split]].
  - unfold copy_config. intros [-> | ->]; [reflexivity|].
    destruct (config opt); reflexivity.
  - intros c d Hc Hd. rewrite (copy_config_strings fs opt c d Hc Hd).
    destruct (Str.contains os.sep c) eqn:Hsep.
    + destruct (rfind_last _ _ Hsep) as (p & t & -> & Ht & Hr).
      exists (p +:+ "/"), t. rewrite Hr.
      replace (Z.to_nat (Z.of_nat (String.length p) + 1)) with (S (String.length p))
        by lia.
      rewrite drop_past. split; [|split; [exact Ht|split]].
      * rewrite append_assoc. reflexivity.
      * right. rewrite endswith_sep_append by discriminate. reflexivity.
      * reflexivity.
    + exists EmptyString, c. split; [reflexivity|]. split; [exact Hsep|].
      split; [left; reflexivity|]. reflexivity.
  - unfold copy_config. intros c -> ->. reflexivity.
  - unfold copy_config. intros d -> ->. cbn [M.str]. rewrite bind_ret_l.
    destruct (os.path_exists fs d); reflexivity.
Qed.

Lemma config_copied_under_base_name_witness :
  (exists dir filename,
     "config/run/kp20k.yml" = dir +:+ filename
     /\ Str.contains os.sep filename = false
     /\ (dir = "" \/ Str.endswith dir "/" = true)
     /\ copy_config Inputs.fs_no_exp Inputs.opt_config
        = ((if os.path_exists Inputs.fs_no_exp "exp" then [] else [os_mkdir "exp"])
             ++ [copy2 "config/run/kp20k.yml" ("exp" +:+ "/" +:+ filename)], inr tt))
  /\ copy_config Inputs.fs_no_exp Inputs.opt_config_none
     = ([os_mkdir "exp"], inl TypeError).
Proof.
  destruct (config_copied_under_base_name Inputs.fs_no_exp Inputs.opt_config)
    as (_ & Hcopy & _).
  destruct (config_copied_under_base_name Inputs.fs_no_exp Inputs.opt_config_none)
    as (_ & _ & _ & Hnone).
  split; [exact (Hcopy _ _ eq_refl eq_refl) | exact (Hnone _ eq_refl eq_refl)].
Defined.

(** ** What the expansion and the shuffle keep *)

Lemma expand_plain fs rest acc :
  NoDup (keys (acc ++ rest)) ->
  Forall (fun item => os.path_isdir fs (path_src item.2) = false) rest ->
  M.for_each rest (expand_corpus fs) acc = ([], inr (acc ++ rest)).
Proof.
  revert acc. induction rest as [|[cid c] rest IH]; intros acc Hnd Hplain.
  - rewrite app_nil_r. reflexivity.
  - apply Forall_cons in Hplain as [Hc Hrest]. cbn [snd] in Hc.
    cbn [M.for_each]. unfold expand_corpus at 1. rewrite Hc, bind_ret_l.
    rewrite dict_set_fresh.
    + rewrite IH; [rewrite <- app_assoc; reflexivity| |exact Hrest].
      rewrite <- app_assoc. exact Hnd.
    + unfold keys in Hnd. rewrite fmap_app in Hnd.
      apply NoDup_app in Hnd as (_ & Hdisj & _). intros Hin.
      apply (Hdisj cid Hin). apply list_elem_of_here.
Qed.

(** The run of [train] that returns: what it makes of [opt]. *)
Lemma train_returned G fs opt opt' :
  (train G fs opt).2 = inr opt' ->
  exists d, expand_data fs (data opt) = ([], inr d)
            /\ opt' = set_data opt (shuffle G (seed opt) d).
Proof.
  intros Hret.
  destruct (train_cases G fs opt)
    as [[Hi Hrun]|[(Hi & _ & Hrun)|[(Hi & _ & e & He & Hrun)|(Hi & _ & d & Hd & Hrun)]]];
    rewrite Hrun in Hret; try discriminate.
  cbn in Hret. inversion Hret. exists d. split; [exact Hd|reflexivity].
Qed.

(** X6: corpora that are plain files pass through unchanged.  When no
    [path_src] of [opt.data] is a directory, the expansion returns
    [opt.data] as it is, and a run that passes the initialisation and the
    copy of the config file returns with [opt.data] holding the same items
    in a shuffled order. *)
Theorem plain_corpora_pass_through G fs opt :
  NoDup (keys (data opt)) ->
  Forall (fun item => os.path_isdir fs (path_src item.2) = false) (data opt) ->
  starts_training opt = true ->
  config_copy_returns opt = true ->
  expand_data fs (data opt) = ([], inr (data opt))
  /\ exists d', (train G fs opt).2 = inr (set_data opt d')
                /\ Permutation d' (data opt).
Proof.
  intros Hnd Hplain Hi Hc.
  assert (Hd : expand_data fs (data opt) = ([], inr (data opt))).
  { apply (expand_plain fs (data opt) []); assumption. }
  split; [exact Hd|]. apply train_shards; assumption.
Qed.

Lemma plain_corpora_pass_through_witness :
  expand_data Ex.no_fs (data Inputs.opt_plain) = ([], inr (data Inputs.opt_plain))
  /\ exists d', (train Ex.G0 Ex.no_fs Inputs.opt_plain).2
                = inr (set_data Inputs.opt_plain d')
                /\ Permutation d' (data Inputs.opt_plain).
Proof.
  apply (plain_corpora_pass_through Ex.G0 Ex.no_fs Inputs.opt_plain).
  - apply (bool_decide_unpack _). reflexivity.
  - repeat constructor.
  - reflexivity.
  - reflexivity.
Defined.

(** X7: a run of [train] that returns leaves in [opt.data] the items of
    the expanded dict, each once, in some order: the shuffle and the
    rebuilding of the dict neither drop nor repeat a shard, and the
    identifiers stay pairwise distinct. *)
Theorem train_only_reorders G fs opt opt' :
  (train G fs opt).2 = inr opt' ->
  exists d, expand_data fs (data opt) = ([], inr d)
            /\ Permutation (data opt') d
            /\ NoDup (keys (data opt')).
Proof.
  intros Hret. destruct (train_returned G fs opt opt' Hret) as (d & Hd & ->).
  exists d. cbn [data set_data]. split; [exact Hd|].
  split; [apply shuffle_Permutation|].
  unfold keys. rewrite shuffle_Permutation. eapply expand_data_NoDup, Hd.
Qed.

Lemma train_only_reorders_witness :
  exists d, expand_data (Ex.fs_ab "corpus/") (data (Ex.opt_dir "corpus/" None))
            = ([], inr d)
            /\ Permutation
                 [("id-b.json",
                   {| path_src := "corpus/b.json"; path_tgt := Some "corpus/b.json";
                      label_data := Some None; others := [] |});
                  ("id-a.json",
                   {| path_src := "corpus/a.json"; path_tgt := Some "corpus/a.json";
                      label_data := Some None; others := [] |})] d
            /\ NoDup ["id-b.json"; "id-a.json"].
Proof.
  exact (train_only_reorders Ex.G0 (Ex.fs_ab "corpus/") (Ex.opt_dir "corpus/" None)
           _ eq_refl).
Defined.

Lemma dict_set_length {V} k (v : V) (d : dict V) :
  (length (dict_set k v d) <= S (length d))%nat.
Proof.
  induction d as [|[k' v'] d IH]; cbn [dict_set length]; [lia|].
  destruct (String.eqb k' k); cbn [length]; lia.
Qed.

Lemma for_each_length {A V} (w : A -> nat) (body : A -> dict V -> M.t (dict V))
    xs s s' tr :
  (forall x s s' tr, body x s = (tr, inr s') ->
                     (length s' <= length s + w x)%nat) ->
  M.for_each xs body s = (tr, inr s') ->
  (length s' <= length s + sum_list (w <$> xs))%nat.
Proof.
  intros Hbody. revert s tr. induction xs as [|x xs IH]; intros s tr Hrun.
  - inversion Hrun; subst. cbn. lia.
  - cbn [M.for_each] in Hrun.
    destruct (body x s) as [t1 [e|s1]] eqn:Hx; [discriminate|].
    rewrite bind_value in Hrun.
    destruct (M.for_each xs body s1) as [t2 [e|s2]] eqn:Hxs; [discriminate|].
    cbn in Hrun. inversion Hrun; subst.
    apply Hbody in Hx. apply IH in Hxs.
    change (sum_list (w <$> x :: xs)) with (w x + sum_list (w <$> xs))%nat. lia.
Qed.

Lemma sum_list_ones {A} (l : list A) : sum_list ((fun _ => 1%nat) <$> l) = length l.
Proof. induction l as [|x l IH]; cbn; [reflexivity|]. rewrite IH. reflexivity. Qed.

Lemma expand_corpus_length fs item acc tr d :
  expand_corpus fs item acc = (tr, inr d) ->
  (length d <= length acc + shard_budget fs item)%nat.
Proof.
  destruct item as [cid c]. unfold expand_corpus, shard_budget, os.path_isdir.
  cbn [snd]. destruct (os.listing fs (path_src c)) as [es|] eqn:Hes.
  - rewrite bool_decide_eq_true_2 by eauto.
    destruct (length (src_file_paths fs (path_src c)) =? 0)%nat; [discriminate|].
    intros Hrun. rewrite <- (length_src_file_paths fs _ es Hes).
    apply (for_each_length (fun _ => 1%nat)) in Hrun.
    + rewrite sum_list_ones in Hrun. exact Hrun.
    + clear. intros p s s' t. unfold expand_file.
      destruct (label_data c) as [[l|]|]; try discriminate;
        rewrite bind_ret_l; intros H; inversion H; subst;
        (etransitivity; [apply dict_set_length|lia]).
  - rewrite bool_decide_eq_false_2 by (intros [? ?]; discriminate).
    intros H; inversion H; subst. etransitivity; [apply dict_set_length|lia].
Qed.

(** X8: a run of [train] that returns leaves in [opt.data] at most one
    shard per plain corpus and at most one shard per data file of each
    directory corpus: identifiers that collide can only lose shards, never
    add one. *)
Theorem shards_at_most_data_files G fs opt opt' :
  (train G fs opt).2 = inr opt' ->
  (length (data opt') <= sum_list (shard_budget fs <$> data opt))%nat.
Proof.
  intros Hret. destruct (train_returned G fs opt opt' Hret) as (d & Hd & ->).
  cbn [data set_data]. rewrite (Permutation_length (shuffle_Permutation _ _ _)).
  apply (for_each_length (shard_budget fs)) in Hd; [exact Hd|].
  intros item s s' tr. apply expand_corpus_length.
Qed.

Lemma shards_at_most_data_files_witness :
  (1 <= sum_list (shard_budget Ex.fs_clash <$> data (Ex.opt_dir "corpus/" None)))%nat.
Proof.
  exact (shards_at_most_data_files Ex.G0 Ex.fs_clash (Ex.opt_dir "corpus/" None)
           _ eq_refl).
Defined.

(** ** The shards a run leaves in [opt.data] *)

Lemma endswith_cons c s suffix :
  Str.endswith s suffix = true -> Str.endswith (String c s) suffix = true.
Proof.
  unfold Str.endswith. intros [Hle Heq]%andb_true_iff.
  apply Nat.leb_le in Hle. cbn [String.length].
  replace (S (String.length s) - String.length suffix)%nat
    with (S (String.length s - String.length suffix)) by lia.
  cbn [String.substring]. rewrite Heq, andb_true_r.
  apply Nat.leb_le. lia.
Qed.

Lemma endswith_append a b suffix :
  Str.endswith b suffix = true -> Str.endswith (a +:+ b) suffix = true.
Proof.
  intros Hb. induction a as [|c a IH]; [exact Hb|].
  rewrite append_cons. apply endswith_cons, IH.
Qed.

Lemma path_join_endswith a b suffix :
  Str.endswith b suffix = true -> Str.endswith (os.path_join a b) suffix = true.
Proof.
  intros Hb. unfold os.path_join.
  destruct (Str.startswith_char b os.sep); [exact Hb|].
  destruct (String.eqb a "" || Str.endswith a "/"); repeat apply endswith_append;
    exact Hb.
Qed.

(** Every path the walk keeps has the data extension. *)
Lemma found_paths_json w p :
  In p (found_paths w) -> Str.endswith p ".json" = true.
Proof.
  unfold found_paths. intros Hin. apply in_flat_map in Hin as ([[root dirs] files] & _ & Hp).
  apply list_elem_of_In, list_elem_of_fmap in Hp as (file & -> & Hfile).
  apply list_elem_of_filter in Hfile as [Hjson _].
  apply path_join_endswith. apply Is_true_eq_true. exact Hjson.
Qed.

Lemma src_file_paths_json fs path p :
  In p (src_file_paths fs path) -> Str.endswith p ".json" = true.
Proof.
  unfold src_file_paths. intros Hin. apply (found_paths_json (os.walk fs path)).
  apply (Permutation_in _ (merge_sort_Permutation Str.le _)), Hin.
Qed.

Lemma for_each_invariant_in {A S} (Inv : S -> Prop) (body : A -> S -> M.t S)
    xs s s' tr :
  (forall x s s' tr, In x xs -> body x s = (tr, inr s') -> Inv s -> Inv s') ->
  Inv s -> M.for_each xs body s = (tr, inr s') -> Inv s'.
Proof.
  revert s tr. induction xs as [|x xs IH]; intros s tr Hbody Hs Hrun.
  - inversion Hrun; subst. exact Hs.
  - cbn [M.for_each] in Hrun. destruct (body x s) as [t1 [e|s1]] eqn:Hx;
      [discriminate|].
    rewrite bind_value in Hrun.
    destruct (M.for_each xs body s1) as [t2 [e|s2]] eqn:Hxs; [discriminate|].
    cbn in Hrun. inversion Hrun; subst.
    eapply IH; [| |exact Hxs].
    + intros y ? ? ? Hy. apply Hbody. right. exact Hy.
    + eapply Hbody; [left; reflexivity|exact Hx|exact Hs].
Qed.

(** X9: every shard that a run of [train] leaves in [opt.data] is either a
    plain corpus of the configuration, kept as it was, or the shard of one
    data file of a directory corpus: its [path_src] is a file found below
    the directory and ends with [.json], its [path_tgt] is the same file,
    its identifier is the corpus identifier, a dash and the rest of the
    path with separators replaced, it always has the key [label_data], and
    its other settings are those of the corpus. *)
Theorem shards_of_a_run G fs opt opt' kv :
  (train G fs opt).2 = inr opt' ->
  In kv (data opt') ->
  (In kv (data opt) /\ os.path_isdir fs (path_src kv.2) = false)
  \/ exists corpus_id corpus,
       In (corpus_id, corpus) (data opt)
       /\ os.path_isdir fs (path_src corpus) = true
       /\ In (path_src kv.2) (src_file_paths fs (path_src corpus))
       /\ Str.endswith (path_src kv.2) ".json" = true
       /\ path_tgt kv.2 = Some (path_src kv.2)
       /\ kv.1 = corpus_id +:+ "-"
                 +:+ Str.replace os.sep "-"
                       (Str.drop (String.length (path_src corpus)) (path_src kv.2))
       /\ is_Some (label_data kv.2)
       /\ others kv.2 = others corpus.
Proof.
  intros Hret Hkv. destruct (train_returned G fs opt opt' Hret) as (d & Hd & ->).
  cbn [data set_data] in Hkv.
  apply (Permutation_in _ (shuffle_Permutation _ _ _)) in Hkv.
  revert kv Hkv. unfold expand_data in Hd.
  eapply (for_each_invariant_in
            (fun d => forall kv, In kv d -> _ \/ _)); [| |exact Hd];
    [|intros ? []].
  clear. intros [cid c] s s' tr Hitem Hrun Hs kv Hkv. unfold expand_corpus in Hrun.
  destruct (os.path_isdir fs (path_src c)) eqn:Hdir.
  - destruct (length _ =? 0)%nat; [discriminate|].
    revert kv Hkv.
    eapply (for_each_invariant_in
              (fun d => forall kv, In kv d -> _ \/ _)); [|exact Hs|exact Hrun].
    clear Hrun Hs. intros p t t' tr' Hp Hfile Ht kv Hkv.
    unfold expand_file in Hfile.
    assert (Hnew : forall labels,
               In kv (dict_set
                        (cid +:+ "-" +:+ Str.replace os.sep "-"
                           (Str.drop (String.length (path_src c)) p))
                        {| path_src := p; path_tgt := Some p;
                           label_data := Some labels; others := others c |} t) ->
               (In kv (data opt) /\ os.path_isdir fs (path_src kv.2) = false)
               \/ exists corpus_id corpus,
                    In (corpus_id, corpus) (data opt)
                    /\ os.path_isdir fs (path_src corpus) = true
                    /\ In (path_src kv.2) (src_file_paths fs (path_src corpus))
                    /\ Str.endswith (path_src kv.2) ".json" = true
                    /\ path_tgt kv.2 = Some (path_src kv.2)
                    /\ kv.1 = corpus_id +:+ "-"
                              +:+ Str.replace os.sep "-"
                                    (Str.drop (String.length (path_src corpus))
                                       (path_src kv.2))
                    /\ is_Some (label_data kv.2)
                    /\ others kv.2 = others corpus).
    { intros labels Hin. apply dict_set_elem in Hin as [Hold| ->]; [apply Ht, Hold|].
      right. exists cid, c. cbn [fst snd path_src path_tgt label_data others].
      repeat split; try assumption; try reflexivity.
      - eapply src_file_paths_json, Hp.
      - eexists; reflexivity. }
    destruct (label_data c) as [[l|]|]; try discriminate;
      rewrite bind_ret_l in Hfile; inversion Hfile; subst t';
      apply (Hnew _ Hkv).
  - inversion Hrun; subst s'. apply dict_set_elem in Hkv as [Hold| ->];
      [apply Hs, Hold|].
    left. split; [exact Hitem|exact Hdir].
Qed.

Lemma shards_of_a_run_witness :
  let kv := ("id-a.json",
             {| path_src := "corpus/a.json"; path_tgt := Some "corpus/a.json";
                label_data := Some None; others := [] |}) in
  (In kv (data (Ex.opt_dir "corpus/" None))
   /\ os.path_isdir (Ex.fs_ab "corpus/") (path_src kv.2) = false)
  \/ exists corpus_id corpus,
       In (corpus_id, corpus) (data (Ex.opt_dir "corpus/" None))
       /\ os.path_isdir (Ex.fs_ab "corpus/") (path_src corpus) = true
       /\ In (path_src kv.2) (src_file_paths (Ex.fs_ab "corpus/") (path_src corpus))
       /\ Str.endswith (path_src kv.2) ".json" = true
       /\ path_tgt kv.2 = Some (path_src kv.2)
       /\ kv.1 = corpus_id +:+ "-"
                 +:+ Str.replace os.sep "-"
                       (Str.drop (String.length (path_src corpus)) (path_src kv.2))
       /\ is_Some (label_data kv.2)
       /\ others kv.2 = others corpus.
Proof.
  apply (shards_of_a_run Ex.G0 (Ex.fs_ab "corpus/") (Ex.opt_dir "corpus/" None)
           _ _ eq_refl).
  right. left. reflexivity.
Defined.

(** ** Directories given without their trailing separator *)

Lemma src_file_paths_below fs top es :
  os.listing fs top = Some es ->
  forallb os.valid_node es = true ->
  Permutation (src_file_paths fs top)
    ((fun r => os.with_sep top +:+ r) <$> os.relative_paths es).
Proof.
  intros Hes Hvalid. unfold src_file_paths, os.walk. rewrite Hes.
  rewrite merge_sort_Permutation, found_by_entry.
  unfold os.relative_paths. clear Hes.
  induction es as [|e es IH]; [reflexivity|].
  cbn [forallb] in Hvalid. apply andb_true_iff in Hvalid as [Hv Hvalid].
  cbn [flat_map]. rewrite fmap_app, (contribution_relative top e Hv).
  rewrite (IH Hvalid). reflexivity.
Qed.

Lemma expand_file_without_separator corpus_id corpus r d :
  label_data corpus <> Some None ->
  expand_file corpus_id corpus (path_src corpus +:+ "/" +:+ r) d
  = ([], inr (dict_set (entry_without_separator corpus_id corpus r).1
                (entry_without_separator corpus_id corpus r).2 d)).
Proof.
  intros Hl. unfold expand_file, entry_without_separator. rewrite drop_append.
  destruct (label_data corpus) as [[l|]|]; [|congruence|]; reflexivity.
Qed.

Lemma expand_files_without_separator corpus_id corpus rs d :
  label_data corpus <> Some None ->
  M.for_each ((fun r => (path_src corpus +:+ "/") +:+ r) <$> rs)
    (expand_file corpus_id corpus) d
  = ([], inr (fold_left
                (fun d r => dict_set (entry_without_separator corpus_id corpus r).1
                              (entry_without_separator corpus_id corpus r).2 d)
                rs d)).
Proof.
  intros Hl. revert d. induction rs as [|r rs IH]; intros d; [reflexivity|].
  cbn [fmap list_fmap M.for_each fold_left].
  rewrite append_assoc, (expand_file_without_separator _ _ _ _ Hl), bind_value, IH.
  reflexivity.
Qed.

(** X11: a directory corpus whose [path_src] is written without the
    trailing separator is expanded with the separator left in front of
    every relative path: the data file at the relative path [r] gets the
    identifier [id + '--' + r] (separators replaced), and each of its label
    sources is ['/' + r], whatever the label folders are. *)
Theorem expand_directory_without_separator fs corpus_id corpus es acc :
  os.listing fs (path_src corpus) = Some es ->
  path_src corpus <> "" ->
  Str.endswith (path_src corpus) "/" = false ->
  forallb os.valid_node es = true ->
  label_data corpus <> Some None ->
  os.relative_paths es <> [] ->
  exists d',
    expand_corpus fs (corpus_id, corpus) acc = ([], inr d')
    /\ (forall r, In r (os.relative_paths es) ->
                  elem_of (entry_without_separator corpus_id corpus r).1 (keys d'))
    /\ (forall kv, In kv d' ->
                   In kv acc
                   \/ exists r, In r (os.relative_paths es)
                                /\ kv = entry_without_separator corpus_id corpus r).
Proof.
  intros Hes Hne Htop Hvalid Hl Hrel.
  pose proof (src_file_paths_below fs _ es Hes Hvalid) as Hperm.
  assert (Hsep : os.with_sep (path_src corpus) = path_src corpus +:+ "/").
  { unfold os.with_sep. rewrite Htop, orb_false_r.
    apply String.eqb_neq in Hne. rewrite Hne. reflexivity. }
  rewrite Hsep in Hperm.
  apply Permutation_map_inv in Hperm as (rs & Hps & Hrs).
  unfold expand_corpus, os.path_isdir. rewrite Hes.
  rewrite bool_decide_eq_true_2 by eauto.
  change (map ?f ?l) with (f <$> l) in Hps. rewrite Hps, length_fmap.
  destruct rs as [|r0 rs'] eqn:Ers.
  { apply Permutation_nil_r in Hrs. contradiction. }
  rewrite <- Ers in *.
  replace (length rs =? 0)%nat with false by (subst; reflexivity).
  rewrite (expand_files_without_separator corpus_id corpus rs acc Hl).
  eexists. split; [reflexivity|].
  destruct (fold_dict_set (entry_without_separator corpus_id corpus) rs acc)
    as (_ & Hnew & Hfrom).
  split.
  - intros r Hr. apply Hnew. apply (Permutation_in _ Hrs), Hr.
  - intros kv Hkv. destruct (Hfrom kv Hkv) as [H|(r & Hr & ->)]; [left; exact H|].
    right. exists r. split; [|reflexivity].
    apply (Permutation_in _ (Permutation_sym Hrs)), Hr.
Qed.

Lemma expand_directory_without_separator_witness :
  exists d',
    expand_corpus (Ex.fs_ab "corpus")
      ("id", Inputs.corpus_dir "corpus" (Some (Some ["labels"]))) []
    = ([], inr d')
    /\ elem_of "id--a.json" (keys d')
    /\ forall kv, In kv d' ->
                  exists r, kv = entry_without_separator "id"
                                   (Inputs.corpus_dir "corpus" (Some (Some ["labels"]))) r.
Proof.
  destruct (expand_directory_without_separator (Ex.fs_ab "corpus") "id"
              (Inputs.corpus_dir "corpus" (Some (Some ["labels"])))
              [os.File "b.json"; os.File "a.json"] [])
    as (d' & Hrun & Hkeys & Hfrom); try reflexivity; try discriminate.
  exists d'. split; [exact Hrun|]. split.
  - apply (Hkeys "a.json"). right. left. reflexivity.
  - intros kv Hkv. destruct (Hfrom kv Hkv) as [[]|(r & _ & ->)].
    exists r. reflexivity.
Defined.

(** ** The processes of a run *)

(** The calls of any run: calls that are not of the launch, then nothing,
    one inline run of the compute step, or the calls of a multi-device
    launch. *)
Lemma train_trace G fs opt :
  exists pre l,
    (train G fs opt).1 = pre ++ l
    /\ Forall (fun e => is_launch_event e = false) pre
    /\ (l = []
        \/ (world_size opt <= 1
            /\ l = [single_main (if (length (gpu_ranks opt) =? 1)%nat then 0 else -1)])
        \/ (1 < world_size opt /\ l = launch_trace opt)).
Proof.
  destruct (train_cases G fs opt)
    as [[Hi Hrun]|[(Hi & _ & Hrun)|[(Hi & _ & e & He & Hrun)|(Hi & _ & d & _ & Hrun)]]];
    rewrite Hrun; cbn [fst].
  - eexists _, []. rewrite app_nil_r. split; [reflexivity|].
    split; [apply init_train_quiet|]. left. reflexivity.
  - exists (prelude fs opt), []. rewrite app_nil_r. split; [reflexivity|].
    split; [apply prelude_no_launch_event|]. left. reflexivity.
  - exists (prelude fs opt), []. rewrite app_nil_r. split; [reflexivity|].
    split; [apply prelude_no_launch_event|]. left. reflexivity.
  - exists (prelude fs opt), (launch (set_data opt (shuffle G (seed opt) d))).1.
    split; [reflexivity|]. split; [apply prelude_no_launch_event|]. right.
    destruct (Z_lt_le_dec 1 (world_size opt)) as [H|H].
    + right. split; [exact H|]. rewrite launch_multi by exact H. reflexivity.
    + left. split; [exact H|]. rewrite launch_inline by exact H. reflexivity.
Qed.

Lemma registered_at_once_quiet tr :
  Forall (fun e => forall p, e <> start p) tr -> registered_at_once tr.
Proof.
  intros Hq i p Hi. exfalso.
  exact (Forall_lookup_1 _ _ _ _ Hq Hi p eq_refl).
Qed.

Lemma registered_at_once_app pre l :
  Forall (fun e => forall p, e <> start p) pre ->
  registered_at_once l -> registered_at_once (pre ++ l).
Proof.
  intros Hq Hl i p Hi. apply lookup_app_Some in Hi as [Hi|[Hle Hi]].
  - exfalso. exact (Forall_lookup_1 _ _ _ _ Hq Hi p eq_refl).
  - apply lookup_app_Some. right. split; [lia|].
    replace (S i - length pre)%nat with (S (i - length pre)) by lia.
    apply Hl, Hi.
Qed.

Lemma registered_at_once_spawns {A} (first : A -> event) (proc : A -> Process)
    (xs : list A) rest :
  (forall x p, first x <> start p) ->
  registered_at_once rest ->
  registered_at_once
    (flat_map (fun x => [first x; start (proc x); add_child (proc x)]) xs ++ rest).
Proof.
  intros Hfirst Hrest. induction xs as [|x xs IH]; [exact Hrest|].
  cbn [flat_map app]. intros [|[|[|i]]] p Hi; cbn in Hi |- *.
  - inversion Hi as [Heq]. destruct (Hfirst x p Heq).
  - inversion Hi; subst. reflexivity.
  - discriminate Hi.
  - apply IH, Hi.
Qed.

Lemma launch_trace_registered_at_once opt : registered_at_once (launch_trace opt).
Proof.
  unfold launch_trace. apply registered_at_once_app; [repeat constructor; discriminate|].
  apply registered_at_once_spawns; [discriminate|].
  apply registered_at_once_spawns; [discriminate|].
  apply registered_at_once_quiet, Forall_app. split;
    apply Forall_fmap, Forall_forall; intros; discriminate.
Qed.

(** X12: in every run of [train], whatever the options and however it
    ends, each process that is started is a daemon and is registered with
    the error handler by the very next call; the processes joined are
    exactly the consumers started and the processes terminated are exactly
    the producers started: no consumer is ever terminated and no producer
    is ever joined. *)
Theorem process_lifecycle G fs opt :
  registered_at_once (train G fs opt).1
  /\ started (train G fs opt).1 = registered (train G fs opt).1
  /\ Forall (fun p => daemon p = true) (started (train G fs opt).1)
  /\ joined (train G fs opt).1
     = filter (fun p => is_consumer p) (started (train G fs opt).1)
  /\ terminated (train G fs opt).1
     = filter (fun p => is_producer p) (started (train G fs opt).1).
Proof.
  destruct (train_trace G fs opt) as (pre & l & -> & Hpre & Hl).
  assert (Hq : forall C (f : event -> option C),
             (forall e, is_launch_event e = false -> f e = None) ->
             omap f (pre ++ l) = omap f l).
  { intros C f Hf. rewrite omap_app, (omap_quiet f pre Hf Hpre). reflexivity. }
  unfold started, registered, joined, terminated.
  rewrite !Hq by (intros []; cbn; congruence).
  split.
  { apply registered_at_once_app.
    - eapply Forall_impl; [exact Hpre|]. intros e He p ->. discriminate He.
    - destruct Hl as [->|[[_ ->]|[_ ->]]].
      + intros i p Hi. destruct i; discriminate Hi.
      + intros [|i] p Hi; [discriminate Hi|]. destruct i; discriminate Hi.
      + apply launch_trace_registered_at_once. }
  destruct Hl as [->|[[_ ->]|[_ ->]]]; try (repeat split; constructor).
  fold (started (launch_trace opt)) (registered (launch_trace opt)).
  rewrite started_launch, registered_launch. split; [reflexivity|]. split.
  { apply Forall_app. split; apply Forall_fmap, Forall_forall; reflexivity. }
  rewrite !filter_app.
  rewrite (filter_fmap_all is_consumer), (filter_fmap_none is_consumer) by reflexivity.
  rewrite (filter_fmap_none is_producer), (filter_fmap_all is_producer) by reflexivity.
  rewrite app_nil_r. cbn [app]. split.
  - observe_launch. rewrite (omap_fmap_some _ join id) by reflexivity.
    rewrite list_fmap_id, ?app_nil_r. reflexivity.
  - observe_launch. rewrite (omap_fmap_some _ terminate id) by reflexivity.
    rewrite list_fmap_id, ?app_nil_r. reflexivity.
Qed.

Lemma queue_of_inj opt i j : queue_of opt i = queue_of opt j -> i = j.
Proof. intros H. injection H. auto. Qed.

(** Among the processes [f k, ..., f (k + n - 1)], where [f j] is given
    the queue of worker [j], the one with the queue of worker [i]. *)
Lemma filter_queue_of opt (f : nat -> Process) i n :
  (forall j, queue_of_process (f j) = queue_of opt j) ->
  forall k,
    filter (fun p => queue_of_process p = queue_of opt i) (f <$> seq k n)
    = if decide (k <= i < k + n)%nat then [f i] else [].
Proof.
  intros Hf. induction n as [|n IH]; intros k.
  - cbn. case_decide; [lia|reflexivity].
  - cbn [seq fmap list_fmap]. rewrite filter_cons, IH, Hf.
    destruct (decide (queue_of opt k = queue_of opt i)) as [Heq|Hne].
    + apply queue_of_inj in Heq. subst k.
      repeat case_decide; try lia. reflexivity.
    + assert (k <> i) by (intros ->; apply Hne; reflexivity).
      repeat case_decide; try lia; reflexivity.
Qed.

(** X13: in a multi-device run, one queue is made for each local rank, the
    queue of worker [i] being the [i]-th made, and the queues are pairwise
    distinct.  The queue of worker [i] is given to exactly two of the
    processes started: consumer [i] and producer [i], each started once,
    the consumer first.  Each queue has one producer and one consumer. *)
Theorem one_producer_one_consumer_per_queue G fs opt :
  starts_training opt = true ->
  config_copy_returns opt = true ->
  forallb (expandable fs) (data opt) = true ->
  1 < world_size opt ->
  queues_made (train G fs opt).1
  = queue_of opt <$> seq 0 (length (gpu_ranks opt))
  /\ NoDup (queues_made (train G fs opt).1)
  /\ forall i, (i < length (gpu_ranks opt))%nat ->
       filter (fun p => queue_of_process p = queue_of opt i)
         (started (train G fs opt).1)
       = [consumer_of opt i; producer_of opt i].
Proof.
  intros Hi Hc He Hws. destruct (train_multi_run G fs opt Hi Hc He Hws) as [d ->].
  cbn [fst]. rewrite started_multi.
  assert (Hq : queues_made (prelude fs opt ++ launch_trace opt)
               = queue_of opt <$> seq 0 (length (gpu_ranks opt))).
  { unfold queues_made at 1. rewrite omap_app. observe_prelude.
    apply queues_made_launch. }
  rewrite Hq. split; [reflexivity|]. split.
  { apply NoDup_fmap_2; [|apply NoDup_seq]. intros i j. apply queue_of_inj. }
  intros i Hlt. rewrite filter_app.
  rewrite (filter_queue_of opt (consumer_of opt)), (filter_queue_of opt (producer_of opt))
    by reflexivity.
  case_decide; [reflexivity|lia].
Qed.

Lemma one_producer_one_consumer_per_queue_witness :
  queues_made (train Ex.G0 Ex.no_fs Ex.opt_two_of_four).1
  = [{| queue_id := 0; maxsize := 40 |}; {| queue_id := 1; maxsize := 40 |}]
  /\ NoDup (queues_made (train Ex.G0 Ex.no_fs Ex.opt_two_of_four).1)
  /\ forall i, (i < 2)%nat ->
       filter (fun p => queue_of_process p = queue_of Ex.opt_two_of_four i)
         (started (train Ex.G0 Ex.no_fs Ex.opt_two_of_four).1)
       = [consumer_of Ex.opt_two_of_four i; producer_of Ex.opt_two_of_four i].
Proof.
  apply (one_producer_one_consumer_per_queue Ex.G0 Ex.no_fs Ex.opt_two_of_four);
    [reflexivity | reflexivity | reflexivity | cbn; lia].
Defined.

(** X14: with [world_size > 1] and an empty [opt.gpu_ranks], a run that
    reaches the launch makes the semaphore, the error queue and the error
    handler and returns at once: no queue is made, no process is started
    and the compute step is not run at all. *)
Theorem multi_device_without_ranks G fs opt :
  starts_training opt = true ->
  config_copy_returns opt = true ->
  forallb (expandable fs) (data opt) = true ->
  1 < world_size opt ->
  gpu_ranks opt = [] ->
  exists opt',
    train G fs opt
    = (prelude fs opt
         ++ [mp_Semaphore (world_size opt * queue_size opt); mp_SimpleQueue;
             new_ErrorHandler], inr opt')
    /\ started (train G fs opt).1 = []
    /\ queues_made (train G fs opt).1 = []
    /\ inline_runs (train G fs opt).1 = [].
Proof.
  intros Hi Hc He Hws Hranks. destruct (train_multi_run G fs opt Hi Hc He Hws) as [d Hrun].
  assert (Hl : launch_trace opt
               = [mp_Semaphore (world_size opt * queue_size opt); mp_SimpleQueue;
                  new_ErrorHandler]).
  { unfold launch_trace. rewrite Hranks. reflexivity. }
  rewrite Hrun, Hl. eexists. split; [reflexivity|]. cbn [fst].
  unfold started, queues_made, inline_runs. rewrite !omap_app.
  repeat observe_prelude. repeat split.
Qed.

Lemma multi_device_without_ranks_witness :
  exists opt',
    train Ex.G0 Ex.no_fs Inputs.opt_no_ranks
    = (prelude Ex.no_fs Inputs.opt_no_ranks
         ++ [mp_Semaphore (2 * 40); mp_SimpleQueue; new_ErrorHandler], inr opt')
    /\ started (train Ex.G0 Ex.no_fs Inputs.opt_no_ranks).1 = []
    /\ queues_made (train Ex.G0 Ex.no_fs Inputs.opt_no_ranks).1 = []
    /\ inline_runs (train Ex.G0 Ex.no_fs Inputs.opt_no_ranks).1 = [].
Proof.
  apply (multi_device_without_ranks Ex.G0 Ex.no_fs Inputs.opt_no_ranks);
    [reflexivity | reflexivity | reflexivity | cbn; lia | reflexivity].
Defined.

(** X15: no run of [train] both runs the compute step inline and makes
    multiprocessing objects: the compute step runs inline at most once,
    and when it does no semaphore, queue or process was made; a process is
    started only when [world_size > 1]. *)
Theorem inline_or_processes G fs opt :
  (length (inline_runs (train G fs opt).1) <= 1)%nat
  /\ (inline_runs (train G fs opt).1 = []
      \/ (world_size opt <= 1
          /\ started (train G fs opt).1 = []
          /\ queues_made (train G fs opt).1 = []
          /\ semaphores (train G fs opt).1 = []))
  /\ (started (train G fs opt).1 = [] \/ 1 < world_size opt).
Proof.
  destruct (train_trace G fs opt) as (pre & l & -> & Hpre & Hl).
  assert (Hq : forall C (f : event -> option C),
             (forall e, is_launch_event e = false -> f e = None) ->
             omap f (pre ++ l) = omap f l).
  { intros C f Hf. rewrite omap_app, (omap_quiet f pre Hf Hpre). reflexivity. }
  unfold started, queues_made, semaphores, inline_runs.
  rewrite !Hq by (intros []; cbn; congruence).
  destruct Hl as [->|[[Hws ->]|[Hws ->]]].
  - cbn. split; [lia|]. split; left; reflexivity.
  - cbn. split; [lia|]. split; [right; repeat split; assumption|left; reflexivity].
  - fold (inline_runs (launch_trace opt)). rewrite inline_runs_launch.
    cbn [length]. split; [lia|]. split; [left; reflexivity|right; exact Hws].
Qed.

(** ** The warning on resumed transforms *)

Lemma size_eq_zero (a : gset string) : size a = 0%nat <-> a = ∅.
Proof. rewrite size_empty_iff. apply leibniz_equiv_iff. Qed.

Lemma symmetric_difference_empty (a b : gset string) :
  size (symmetric_difference a b) = 0%nat <-> a = b.
Proof.
  unfold symmetric_difference. rewrite size_eq_zero. split.
  - intros H. apply set_eq. intros x.
    assert (Hx : ~ elem_of x ((a ∖ b) ∪ (b ∖ a))).
    { rewrite H. apply not_elem_of_empty. }
    rewrite elem_of_union, !elem_of_difference in Hx.
    destruct (decide (elem_of x a)), (decide (elem_of x b)); tauto.
  - intros ->. apply set_eq. intros x.
    rewrite elem_of_union, !elem_of_difference, elem_of_empty. tauto.
Qed.

Lemma size_zero_iff (a : gset string) : (size a =? 0)%nat = true <-> a = ∅.
Proof. rewrite Nat.eqb_eq. apply size_eq_zero. Qed.

(** X16: when training resumes from a checkpoint, the warning on
    transforms is logged exactly when the checkpoint records its transforms
    and they are not the configured ones.  A logged message starts with
    the fixed text and shows the transforms added and the transforms
    removed, leaving out an empty set: it always shows at least one
    non-empty set. *)
Theorem transforms_warning_spec configured checkpointed :
  (transforms_warning configured checkpointed = None
   <-> checkpointed = None \/ checkpointed = Some configured)
  /\ forall msg, transforms_warning configured checkpointed = Some msg ->
       exists ck,
         checkpointed = Some ck
         /\ head msg
            = Some (text "configured transforms is different from checkpoint:")
         /\ shown msg
            = filter (fun t => t <> ∅) [configured ∖ ck; ck ∖ configured]
         /\ exists t, In t (shown msg).
Proof.
  unfold transforms_warning. destruct checkpointed as [ck|].
  2:{ split; [split; [left; reflexivity|reflexivity]|discriminate]. }
  destruct (size (symmetric_difference configured ck) =? 0)%nat eqn:Hdiff; cbn [negb].
  - apply Nat.eqb_eq, symmetric_difference_empty in Hdiff. subst ck.
    split; [split; [right; reflexivity|reflexivity]|discriminate].
  - split.
    { split; [discriminate|]. intros [H|H]; [discriminate|].
      inversion H; subst ck.
      apply Nat.eqb_neq in Hdiff. destruct Hdiff.
      apply symmetric_difference_empty. reflexivity. }
    intros msg Hmsg. exists ck. split; [reflexivity|].
    assert (Hsome : configured ∖ ck <> ∅ \/ ck ∖ configured <> ∅).
    { destruct (decide (configured ∖ ck = ∅)) as [Hn|Hn]; [|left; exact Hn].
      right. intros Ho. apply Nat.eqb_neq in Hdiff. apply Hdiff.
      unfold symmetric_difference. rewrite Hn, Ho.
      apply size_eq_zero, set_eq. intros x.
      rewrite elem_of_union, elem_of_empty. tauto. }
    destruct (size (configured ∖ ck) =? 0)%nat eqn:Hnew;
      destruct (size (ck ∖ configured) =? 0)%nat eqn:Hold;
      cbn [negb] in Hmsg; inversion Hmsg; subst msg; clear Hmsg;
      try (apply size_zero_iff in Hnew); try (apply size_zero_iff in Hold);
      try (apply Nat.eqb_neq in Hnew; rewrite size_eq_zero in Hnew);
      try (apply Nat.eqb_neq in Hold; rewrite size_eq_zero in Hold).
    + exfalso. destruct Hsome; contradiction.
    + split; [reflexivity|]. cbn [app shown omap list_omap].
      rewrite filter_cons_False by (intros H; apply H, Hnew).
      rewrite filter_cons_True by exact Hold.
      split; [reflexivity|]. eexists. left. reflexivity.
    + split; [reflexivity|]. cbn [app shown omap list_omap].
      rewrite filter_cons_True by exact Hnew.
      rewrite filter_cons_False by (intros H; apply H, Hold).
      split; [reflexivity|]. eexists. left. reflexivity.
    + split; [reflexivity|]. cbn [app shown omap list_omap].
      rewrite filter_cons_True by exact Hnew.
      rewrite filter_cons_True by exact Hold.
      split; [reflexivity|]. eexists. left. reflexivity.
Qed.

(** ** No identifier is lost *)

Lemma dict_set_adds {V} k (v : V) (d : dict V) :
  elem_of k (keys (dict_set k v d))
  /\ forall k', elem_of k' (keys d) -> elem_of k' (keys (dict_set k v d)).
Proof.
  rewrite dict_set_keys. case_bool_decide as Hk.
  - split; [exact Hk|tauto].
  - split; [apply elem_of_app; right; apply list_elem_of_here|].
    intros k' Hk'. apply elem_of_app. left. exact Hk'.
Qed.

Lemma for_each_adds {A V} (added : A -> list string)
    (body : A -> dict V -> M.t (dict V)) xs s s' tr :
  (forall x s s' tr, body x s = (tr, inr s') ->
     (forall k, In k (added x) -> elem_of k (keys s'))
     /\ (forall k, elem_of k (keys s) -> elem_of k (keys s'))) ->
  M.for_each xs body s = (tr, inr s') ->
  (forall x k, In x xs -> In k (added x) -> elem_of k (keys s'))
  /\ (forall k, elem_of k (keys s) -> elem_of k (keys s')).
Proof.
  intros Hbody. revert s tr. induction xs as [|x xs IH]; intros s tr Hrun.
  - inversion Hrun; subst. split; [intros ? ? []|tauto].
  - cbn [M.for_each] in Hrun.
    destruct (body x s) as [t1 [e|s1]] eqn:Hx; [discriminate|].
    rewrite bind_value in Hrun.
    destruct (M.for_each xs body s1) as [t2 [e|s2]] eqn:Hxs; [discriminate|].
    cbn in Hrun. inversion Hrun; subst.
    destruct (Hbody _ _ _ _ Hx) as [Hnew Hkeep].
    destruct (IH _ _ Hxs) as [Hnews Hkeeps]. split.
    + intros y k [<-|Hy] Hk; [apply Hkeeps, Hnew, Hk|].
      apply (Hnews y k Hy Hk).
    + intros k Hk. apply Hkeeps, Hkeep, Hk.
Qed.

Lemma expand_corpus_adds fs item s s' tr :
  expand_corpus fs item s = (tr, inr s') ->
  (forall k, In k (identifiers_set fs item) -> elem_of k (keys s'))
  /\ (forall k, elem_of k (keys s) -> elem_of k (keys s')).
Proof.
  destruct item as [cid c]. unfold expand_corpus, identifiers_set. cbn [fst snd].
  destruct (os.path_isdir fs (path_src c)).
  - destruct (length _ =? 0)%nat; [discriminate|]. intros Hrun.
    apply (for_each_adds (fun p => [identifier_of cid c p])) in Hrun.
    + destruct Hrun as [Hnew Hkeep]. split; [|exact Hkeep].
      intros k Hk. apply list_elem_of_In, list_elem_of_fmap in Hk as (p & -> & Hp).
      apply (Hnew p); [apply list_elem_of_In, Hp|left; reflexivity].
    + clear. intros p s s' tr. unfold expand_file, identifier_of.
      destruct (label_data c) as [[l|]|]; try discriminate;
        rewrite bind_ret_l; intros H; inversion H; subst;
        (split; [intros k [<-|[]]; apply (proj1 (dict_set_adds _ _ _))
                |apply (proj2 (dict_set_adds _ _ _))]).
  - intros H; inversion H; subst.
    split; [intros k [<-|[]]; apply (proj1 (dict_set_adds _ _ _))
           |apply (proj2 (dict_set_adds _ _ _))].
Qed.

(** X17: no identifier is lost.  After a run of [train] that returns,
    [opt.data] has the identifier of every plain corpus of the
    configuration and, for every directory corpus, the identifier of each
    of its data files: the corpus identifier, a dash and the path of the
    file after the first [len(path_src)] characters, separators replaced
    by dashes. *)
Theorem identifiers_of_a_run G fs opt opt' corpus_id corpus :
  (train G fs opt).2 = inr opt' ->
  In (corpus_id, corpus) (data opt) ->
  (os.path_isdir fs (path_src corpus) = false ->
   In corpus_id (keys (data opt')))
  /\ (os.path_isdir fs (path_src corpus) = true ->
      forall p, In p (src_file_paths fs (path_src corpus)) ->
                In (identifier_of corpus_id corpus p) (keys (data opt'))).
Proof.
  intros Hret Hin. destruct (train_returned G fs opt opt' Hret) as (d & Hd & ->).
  cbn [data set_data].
  assert (Hkeys : forall k, In k (identifiers_set fs (corpus_id, corpus)) ->
                            In k (keys (shuffle G (seed opt) d))).
  { intros k Hk. unfold keys.
    apply (Permutation_in _ (Permutation_sym
             (fmap_Permutation fst _ _ (shuffle_Permutation G (seed opt) d)))).
    apply list_elem_of_In.
    apply (for_each_adds (identifiers_set fs)) in Hd.
    - destruct Hd as [Hnew _]. apply (Hnew _ k Hin Hk).
    - intros. eapply expand_corpus_adds. eassumption. }
  unfold identifiers_set in Hkeys. cbn [fst snd] in Hkeys. split; intros Hdir.
  - apply Hkeys. rewrite Hdir. left. reflexivity.
  - intros p Hp. apply Hkeys. rewrite Hdir.
    apply list_elem_of_In, list_elem_of_fmap. exists p.
    split; [reflexivity|apply list_elem_of_In, Hp].
Qed.

Lemma identifiers_of_a_run_witness :
  (os.path_isdir Ex.fs_clash "corpus/" = false ->
   In "id" ["id-a-b.json"])
  /\ (os.path_isdir Ex.fs_clash "corpus/" = true ->
      forall p, In p (src_file_paths Ex.fs_clash "corpus/") ->
                In (identifier_of "id" (Inputs.corpus_dir "corpus/" None) p)
                  ["id-a-b.json"]).
Proof.
  exact (identifiers_of_a_run Ex.G0 Ex.fs_clash (Ex.opt_dir "corpus/" None) _
           "id" (Inputs.corpus_dir "corpus/" None) eq_refl (or_introl eq_refl)).
Defined.

(** ** Identifiers that do not collide *)

Lemma fold_dict_set_fresh {A V} (f : A -> string * V) (xs : list A) (d : dict V) :
  NoDup (keys d ++ ((fun x => (f x).1) <$> xs)) ->
  fold_left (fun d x => dict_set (f x).1 (f x).2 d) xs d = d ++ (f <$> xs).
Proof.
  revert d. induction xs as [|x xs IH]; intros d Hnd.
  - cbn. rewrite app_nil_r. reflexivity.
  - cbn [fold_left fmap list_fmap] in *. rewrite dict_set_fresh.
    + rewrite IH.
      * rewrite <- app_assoc. cbn. destruct (f x). reflexivity.
      * unfold keys in *. rewrite fmap_app, <- app_assoc. exact Hnd.
    + apply NoDup_app in Hnd as (_ & Hdisj & _). intros Hin.
      apply (Hdisj _ Hin). apply list_elem_of_here.
Qed.

(** X18: when the identifiers do not collide no data file is lost.  For a
    directory given with its trailing separator whose data files get
    pairwise distinct identifiers, none of them in use, the expansion
    appends exactly one shard per data file, in the sorted order of the
    file paths. *)
Theorem directory_shards_without_collision fs corpus_id corpus es acc :
  os.listing fs (path_src corpus) = Some es ->
  Str.endswith (path_src corpus) "/" = true ->
  forallb os.valid_node es = true ->
  label_data corpus <> Some None ->
  os.relative_paths es <> [] ->
  NoDup (keys acc
           ++ ((fun r => (entry_for corpus_id corpus r).1) <$> os.relative_paths es)) ->
  exists rs,
    Permutation rs (os.relative_paths es)
    /\ src_file_paths fs (path_src corpus) = (fun r => path_src corpus +:+ r) <$> rs
    /\ Sorted Str.le (src_file_paths fs (path_src corpus))
    /\ expand_corpus fs (corpus_id, corpus) acc
       = ([], inr (acc ++ (entry_for corpus_id corpus <$> rs)))
    /\ length (acc ++ (entry_for corpus_id corpus <$> rs))
       = (length acc + os.data_files es)%nat.
Proof.
  intros Hes Htop Hvalid Hl Hne Hnd.
  pose proof (src_file_paths_relative fs _ es Hes Htop Hvalid) as Hperm.
  apply Permutation_map_inv in Hperm as (rs & Hps & Hrs).
  change (map ?f ?l) with (f <$> l) in Hps.
  exists rs. split; [symmetry; exact Hrs|]. split; [exact Hps|].
  split; [apply Sorted_merge_sort, _|].
  assert (Hlen : length rs = os.data_files es).
  { rewrite <- (length_src_file_paths fs _ es Hes), Hps, length_fmap. reflexivity. }
  split; [|rewrite length_app, length_fmap, Hlen; reflexivity].
  unfold expand_corpus, os.path_isdir. rewrite Hes.
  rewrite bool_decide_eq_true_2 by eauto.
  rewrite Hps, length_fmap.
  destruct rs as [|r0 rs'] eqn:Ers.
  { apply Permutation_nil_r in Hrs. contradiction. }
  rewrite <- Ers in *.
  replace (length rs =? 0)%nat with false by (subst; reflexivity).
  rewrite (expand_files_entries corpus_id corpus rs acc Hl).
  rewrite fold_dict_set_fresh; [reflexivity|].
  rewrite <- Hrs. exact Hnd.
Qed.

Lemma directory_shards_without_collision_witness :
  exists rs,
    Permutation rs ["b.json"; "a.json"]
    /\ src_file_paths (Ex.fs_ab "corpus/") "corpus/" = (fun r => "corpus/" +:+ r) <$> rs
    /\ Sorted Str.le (src_file_paths (Ex.fs_ab "corpus/") "corpus/")
    /\ expand_corpus (Ex.fs_ab "corpus/")
         ("id", Inputs.corpus_dir "corpus/" (Some (Some ["labels"]))) []
       = ([], inr ([] ++ (entry_for "id"
                            (Inputs.corpus_dir "corpus/" (Some (Some ["labels"])))
                          <$> rs)))
    /\ length ([] ++ (entry_for "id"
                        (Inputs.corpus_dir "corpus/" (Some (Some ["labels"])))
                      <$> rs))
       = (0 + 2)%nat.
Proof.
  apply (directory_shards_without_collision (Ex.fs_ab "corpus/") "id"
           (Inputs.corpus_dir "corpus/" (Some (Some ["labels"])))
           [os.File "b.json"; os.File "a.json"] []);
    try reflexivity; try discriminate.
  apply (bool_decide_unpack _). reflexivity.
Defined.
